(** * AdEx validator stack: follower rules, follower tick, channel schema

    A shallow embedding of
    - [services/validatorWorker/lib/followerRules.js]
      ([isValidTransition], [isHealthy], [sumBNs], [sumMap], [sumMins]),
    - [services/validatorWorker/follower.js] in its two revisions
      (the one that only logs an invalid NewState, and the one that hands
      it to [onError]),
    - the [createChannel] and [validatorMessage] entries of
      [routes/schemas.js],
    - the control flow of [bin/validatorWorker.js],
    - [genEvents] and [getDummySig] of [test/lib.js],
    together with the properties the specification states about them and
    further properties of the code.

    Conventions of the embedding.
    - A [bn.js] big number is a [Z]; [a.div(b)] truncates toward zero
      ([Z.quot]) and raises when [b] is zero.
    - A balance map (a plain JS object used as a dictionary from publisher
      identifier to [BN]) is a [gmap string Z]; only own properties are
      modelled.  [Object.entries], [Object.values] and [Object.keys] become
      [map_to_list] and its projections: every use in the source folds a
      commutative sum or a pure [every] over them, so the enumeration order
      of the object is immaterial.
    - A synchronous [throw] (or a rejected promise) is the [Throw] outcome.
    - Calls that leave the module (adapter, producer, heartbeat, propagation,
      console) are recorded, in program order, in a trace. *)

From Stdlib Require Import ZArith QArith String List Lia Bool Ascii Sorted.
From stdpp Require Import base gmap strings list pretty.

Set Warnings "-register-all".

Local Open Scope string_scope.
Local Open Scope Z_scope.
Local Open Scope list_scope.

(** ** Outcomes of JavaScript computations *)

Inductive js_error : Type :=
| AssertionError (message : string)
| TypeError (message : string).

Inductive outcome (A : Type) : Type :=
| Ok (a : A)
| Throw (e : js_error).

Arguments Ok {A} a.
Arguments Throw {A} e.

Definition outcome_bind {A B : Type} (x : outcome A) (f : A → outcome B) : outcome B :=
  match x with
  | Ok a => f a
  | Throw e => Throw e
  end.

(** ** Channels *)

Record Validator : Type := mkValidator {
  validator_id : string;
  validator_url : string;
  validator_fee : string
}.

Record ChannelSpec : Type := mkChannelSpec {
  spec_validators : list Validator
}.

(** [depositAmount] is the integer that [new BN(channel.depositAmount, 10)]
    denotes; [validators] is the list of validator identities the sentry
    stores next to [spec.validators]. *)
Record Channel : Type := mkChannel {
  channel_id : string;
  depositAmount : Z;
  validators : list string;
  spec : ChannelSpec
}.

(** ** bn.js *)

Module BN.

Definition gte (a b : Z) : bool := b <=? a.
Definition lte (a b : Z) : bool := a <=? b.
Definition lt (a b : Z) : bool := a <? b.
Definition isNeg (a : Z) : bool := a <? 0.
Definition add (a b : Z) : Z := a + b.
Definition mul (a b : Z) : Z := a * b.

(** [BN.min(left, right)]: [left.cmp(right) < 0 ? left : right]. *)
Definition min (left right : Z) : Z := if left <? right then left else right.

(** [a.div(b)]: bn.js asserts that the divisor is not zero, then divides
    truncating toward zero. *)
Definition div (a b : Z) : outcome Z :=
  if b =? 0 then Throw (AssertionError "Assertion failed") else Ok (Z.quot a b).

End BN.

(** ** followerRules.js *)

Module FollowerRules.

Definition Object_entries (o : gmap string Z) : list (string * Z) := map_to_list o.
Definition Object_values (o : gmap string Z) : list Z := (map_to_list o).*2.
Definition Object_keys (o : gmap string Z) : list string := (map_to_list o).*1.

(** [bns.reduce((a, b) => a.add(b), new BN(0))] *)
Definition sumBNs (bns : list Z) : Z := fold_left (fun a b => BN.add a b) bns 0.

Definition sumMap (all : gmap string Z) : Z := sumBNs (Object_values all).

(** [our[k]] for a key [k] of [our]; [approved[k] || new BN(0)]: a [BN]
    object is always truthy, so the fallback is taken exactly when the key
    is absent. *)
Definition sumMins (our approved : gmap string Z) : Z :=
  sumBNs (map (fun k => BN.min (our !!! k) (default 0 (approved !! k)))
              (Object_keys our)).

Definition isValidTransition (channel : Channel) (prev next : gmap string Z) : bool :=
  let sumPrev := sumMap prev in
  let sumNext := sumMap next in
  let depositAmount := depositAmount channel in
  BN.gte sumNext sumPrev
  && BN.lte sumNext depositAmount
  && forallb (fun '(acc, bal) =>
                match next !! acc with
                | None => false
                | Some nextBal => BN.gte nextBal bal
                end) (Object_entries prev)
  && forallb (fun '(_, bal) => negb (BN.isNeg bal)) (Object_entries next).

(** The invariant of a balance map: no balance is negative. *)
Definition nonNegative (m : gmap string Z) : Prop :=
  map_Forall (fun _ v => 0 <= v) m.

Section Health.

(** [cfg.HEALTH_THRESHOLD_PROMILLES]; the configuration module is not
    part of the sources at hand. *)
Variable HEALTH_THRESHOLD_PROMILLES : Z.

Definition HEALTH_THRESHOLD : Z := HEALTH_THRESHOLD_PROMILLES.

Definition isHealthy (our approved : gmap string Z) : outcome bool :=
  let sumOur := sumMap our in
  let sumApprovedMins := sumMins our approved in
  if BN.gte sumApprovedMins sumOur then Ok true
  else
    outcome_bind (BN.div (BN.mul sumApprovedMins 1000) sumOur) (fun q =>
      if BN.lt q HEALTH_THRESHOLD then Ok false else Ok true).

End Health.

End FollowerRules.

(** ** JavaScript values that cross module boundaries untyped *)

Inductive JsValue : Type :=
| JsUndefined
| JsNull
| JsBool (b : bool)
| JsNumber (q : Q)
| JsString (s : string)
| JsArray (items : list JsValue)
| JsObject (fields : list (string * JsValue)).

(** ** Validator messages and the [validatorMessages] collection *)

Record NewStateMsg : Type := mkNewState {
  ns_stateRoot : string;
  ns_signature : string;
  ns_balances : gmap string string;
  ns_balancesAfterFees : gmap string string;
  ns_created : option Z
}.

Record ApproveStateMsg : Type := mkApproveState {
  as_stateRoot : string;
  as_signature : string;
  as_isHealthy : bool;
  as_created : option Z
}.

Inductive Msg : Type :=
| MsgNewState (m : NewStateMsg)
| MsgApproveState (m : ApproveStateMsg)
| MsgRejectState (reason : string) (created : option Z)
| MsgHeartbeat (stateRoot signature timestamp : string)
| MsgAccounting (lastEvAggr : string) (balances balancesBeforeFees : gmap string string).

(** [msg.type] *)
Definition msg_type (m : Msg) : string :=
  match m with
  | MsgNewState _ => "NewState"
  | MsgApproveState _ => "ApproveState"
  | MsgRejectState _ _ => "RejectState"
  | MsgHeartbeat _ _ _ => "Heartbeat"
  | MsgAccounting _ _ _ => "Accounting"
  end.

(** [msg.stateRoot]; [None] is JavaScript's [undefined]. *)
Definition msg_stateRoot (m : Msg) : option string :=
  match m with
  | MsgNewState n => Some (ns_stateRoot n)
  | MsgApproveState a => Some (as_stateRoot a)
  | MsgHeartbeat r _ _ => Some r
  | MsgRejectState _ _ | MsgAccounting _ _ _ => None
  end.

(** [msg.created] *)
Definition msg_created (m : Msg) : option Z :=
  match m with
  | MsgNewState n => ns_created n
  | MsgApproveState a => as_created a
  | MsgRejectState _ c => c
  | MsgHeartbeat _ _ _ | MsgAccounting _ _ _ => None
  end.

Module Mongo.

(** A MongoDB ObjectId: 4 bytes of seconds since the epoch, 5 bytes unique
    to the generating process, 3 bytes of counter.  ObjectIds compare
    bytewise, that is lexicographically on the three fields. *)
Record ObjectId : Type := mkObjectId {
  oid_seconds : Z;
  oid_process : Z;
  oid_counter : Z
}.

Definition ObjectId_ltb (a b : ObjectId) : bool :=
  (oid_seconds a <? oid_seconds b)
  || ((oid_seconds a =? oid_seconds b)
      && ((oid_process a <? oid_process b)
          || ((oid_process a =? oid_process b)
              && (oid_counter a <? oid_counter b)))).

(** A stored validator message [{ _id, channelId, from, msg }]. *)
Record Doc : Type := mkDoc {
  doc_id : ObjectId;
  doc_channelId : string;
  doc_from : string;
  doc_msg : Msg
}.

(** A collection lists its documents in insertion order, oldest first. *)
Abbreviation Collection := (list Doc).

Definition find (query : Doc → bool) (col : Collection) : list Doc :=
  List.filter query col.

Definition findOne (query : Doc → bool) (col : Collection) : option Doc :=
  List.find query col.

Section Sort.
Context {K : Type} (key : Doc → K) (ltb : K → K → bool).

(** [.sort({ key: -1 })]: descending on [key].  MongoDB leaves the order
    of documents with equal keys open; the model keeps them in
    collection order. *)
Fixpoint insert_desc (d : Doc) (sorted : list Doc) : list Doc :=
  match sorted with
  | [] => [d]
  | e :: rest =>
      if ltb (key d) (key e) then e :: insert_desc d rest
      else d :: e :: rest
  end.

Definition sort_desc (docs : list Doc) : list Doc :=
  fold_right insert_desc [] docs.

(** No document of [docs] has a key above the key of [h]. *)
Definition dominates (h : Doc) (docs : list Doc) : Prop :=
  ∀ x, In x docs → ltb (key h) (key x) = false.
End Sort.

Definition limit (n : nat) (docs : list Doc) : list Doc := firstn n docs.

(** Order on an optional numeric field: a missing field sorts below every
    number. *)
Definition missing_or_ltb (a b : option Z) : bool :=
  match a, b with
  | None, Some _ => true
  | Some x, Some y => x <? y
  | _, None => false
  end.

End Mongo.

Import Mongo.

(** ** What the follower calls outside its own module *)

Record Adapter : Type := mkAdapter {
  whoami : string;
  verify : string → string → string → bool;
  sign : list ascii → string
}.

(** The result of [producer.tick]: the fields the follower reads. *)
Record ProducerRes : Type := mkProducerRes {
  res_channel : Channel;
  res_balances : gmap string Z;
  res_newStateTree : option (gmap string Z)
}.

(** Functions of [./lib], [./lib/fees], [./lib/propagation], [./producer],
    [./heartbeat], the configuration and the Node runtime; none of them is
    among the sources at hand, so the follower is embedded over an arbitrary
    environment.
    [toBNStringMap] is applied by the source both to maps of [BN] and to the
    maps of decimal strings a message carries. *)
Record Env : Type := mkEnv {
  adapter : Adapter;
  producer_tick : Channel → bool → ProducerRes;
  heartbeatIfNothingNew_result : Channel → JsValue → JsValue;
  persistAndPropagate_result : list Validator → Channel → Msg → JsValue;
  onError_result : Channel → string → NewStateMsg → string → string → JsValue;
  toBNMap : gmap string string → gmap string Z;
  toBNStringMap : gmap string Z + gmap string string → gmap string string;
  toStringBN : gmap string Z → string;
  getBalancesAfterFeesTree : gmap string Z → Channel → gmap string Z;
  isValidRootHash : string → Channel → gmap string string → bool;
  Buffer_from_hex : string → list ascii;
  Date_now : Z;
  cfg_HEALTH_THRESHOLD_PROMILLES : Z
}.

Inductive LogArg : Type :=
| LogBalances (m : gmap string Z)
| LogStrings (m : gmap string string)
| LogString (s : string).

(** One observable call, with its arguments (the [adapter] argument, always
    the environment's, is left out). *)
Inductive Effect : Type :=
| ConsoleError (line : string) (args : list LogArg)
| ProducerTick (channel : Channel) (force : bool)
| AdapterVerify (id stateRoot signature : string)
| AdapterSign (raw : list ascii)
| PersistAndPropagate (otherValidators : list Validator) (channel : Channel) (msg : Msg)
| OnError (channel : Channel) (reason : string) (newMsg : NewStateMsg)
          (prevBalancesString newBalancesString : string)
| HeartbeatIfNothingNew (channel : Channel) (res : JsValue).

(** A computation: the calls it made so far, and how it ended. *)
Definition M (A : Type) : Type := (list Effect * outcome A)%type.

Definition M_ret {A : Type} (a : A) : M A := ([], Ok a).

Definition M_bind {A B : Type} (x : M A) (f : A → M B) : M B :=
  match x with
  | (t, Ok a) => let '(t', r) := f a in (t ++ t', r)
  | (t, Throw e) => (t, Throw e)
  end.

Definition call {A : Type} (e : Effect) (answer : A) : M A := ([e], Ok answer).

Definition lift {A : Type} (x : outcome A) : M A := ([], x).

Definition trace {A : Type} (x : M A) : list Effect := fst x.

Notation "x '<-' c ';;' k" := (M_bind c (fun x => k))
  (at level 100, c at next level, right associativity).
Notation "c ';;;' k" := (M_bind c (fun _ => k))
  (at level 100, right associativity).

(** ** follower.js: what both revisions share verbatim *)

(** An ApproveState message joined with the [balances] of its NewState:
    [{ ...approveMsg, balances: o.msg.balances }]. *)
Record AugmentedApprove : Type := mkAugmented {
  aug_msg : Msg;
  aug_balances : gmap string string
}.

Definition nothingNew (b : bool) : JsValue := JsObject [("nothingNew", JsBool b)].

Section FollowerShared.

Variable env : Env.

Definition heartbeatIfNothingNew (channel : Channel) (res : JsValue) : M JsValue :=
  call (HeartbeatIfNothingNew channel res) (heartbeatIfNothingNew_result env channel res).

Definition persistAndPropagate (otherValidators : list Validator) (channel : Channel)
    (msg : Msg) : M JsValue :=
  call (PersistAndPropagate otherValidators channel msg)
       (persistAndPropagate_result env otherValidators channel msg).

Definition console_error (line : string) (args : list LogArg) : M unit :=
  call (ConsoleError line args) tt.

Definition adapter_verify (id stateRoot signature : string) : M bool :=
  call (AdapterVerify id stateRoot signature) (verify (adapter env) id stateRoot signature).

Definition adapter_sign (raw : list ascii) : M string :=
  call (AdapterSign raw) (sign (adapter env) raw).

(** [isEqual] is lodash's deep equality, here on two plain objects of
    strings. *)
Definition isValidValidatorFees (channel : Channel) (balances : gmap string Z)
    (balancesAfterFees : gmap string string) : bool :=
  let calcBalancesAfterFees :=
    toBNStringMap env (inl (getBalancesAfterFeesTree env balances channel)) in
  bool_decide (calcBalancesAfterFees = toBNStringMap env (inr balancesAfterFees)).

(** [assert.ok(o && o.msg && o.msg.balances, ...)]: a stored NewState
    always carries [balances], so the assertion fails exactly when
    [findOne] found nothing. *)
Definition augmentWithBalances (col : Collection) (approveMsg : option Msg)
    : outcome (option AugmentedApprove) :=
  match approveMsg with
  | None => Ok None
  | Some approveMsg =>
      let o := findOne (fun d =>
                 bool_decide (msg_type (doc_msg d) = "NewState")
                 && bool_decide (msg_stateRoot (doc_msg d) = msg_stateRoot approveMsg)) col in
      match o with
      | Some (mkDoc _ _ _ (MsgNewState n)) =>
          Ok (Some (mkAugmented approveMsg (ns_balances n)))
      | _ =>
          Throw (AssertionError
                   "cannot find NewState message corresponding to the ApproveState")
      end
  end.

(** [newMsg && approveMsg && newMsg.stateRoot == approveMsg.stateRoot] *)
Definition latestIsApproved (newMsg : option Msg) (approveMsg : option AugmentedApprove)
    : bool :=
  match newMsg, approveMsg with
  | Some n, Some a => bool_decide (msg_stateRoot n = msg_stateRoot (aug_msg a))
  | _, _ => false
  end.

(** The query [{ channelId, from, 'msg.type': type }].  [from] may be
    [undefined] ([channel.validators[0]] of an empty list), which no stored
    document matches. *)
Definition latestMsgQuery (channelId : string) (from : option string) (type : string)
    (d : Doc) : bool :=
  bool_decide (doc_channelId d = channelId)
  && bool_decide (Some (doc_from d) = from)
  && bool_decide (msg_type (doc_msg d) = type).

End FollowerShared.

(** A NewState with the stateRoot of [approveMsg] is in the collection. *)
Definition joinable (col : Collection) (approveMsg : Msg) : Prop :=
  ∃ d, In d col ∧ msg_type (doc_msg d) = "NewState"
       ∧ msg_stateRoot (doc_msg d) = msg_stateRoot approveMsg.


(** The tick that finds nothing to approve: the producer tick without the
    second argument, then the heartbeat. *)
Definition quietTick (env : Env) (channel : Channel) : M JsValue :=
  let res := producer_tick env channel false in
  let nothing := nothingNew (negb (bool_decide (is_Some (res_newStateTree res)))) in
  ([ProducerTick channel false; HeartbeatIfNothingNew channel nothing],
   Ok (heartbeatIfNothingNew_result env channel nothing)).

(** The tick that the assertion of [augmentWithBalances] rejects. *)
Definition rejectedTick : M JsValue :=
  ([], Throw (AssertionError
                "cannot find NewState message corresponding to the ApproveState")).

(** A call that reports a rejected NewState to the peers. *)
Definition reportsRejection (e : Effect) : bool :=
  match e with
  | PersistAndPropagate _ _ (MsgRejectState _ _) => true
  | OnError _ _ _ _ _ => true
  | _ => false
  end.

(** A call that emits an ApproveState. *)
Definition emitsApproveState (e : Effect) : bool :=
  match e with
  | PersistAndPropagate _ _ (MsgApproveState _) => true
  | _ => false
  end.

(** ** follower.js, the revision that logs an invalid NewState *)

Module Follower.
Section WithEnv.

Variable env : Env.

Definition getLatestMsg (col : Collection) (channelId : string) (from : option string)
    (type : string) : option Msg :=
  match limit 1 (sort_desc doc_id ObjectId_ltb
                   (find (latestMsgQuery channelId from type) col)) with
  | o :: _ => Some (doc_msg o)
  | [] => None
  end.

Definition onNewState (channel : Channel) (balances : gmap string Z)
    (newMsg : NewStateMsg) (approveMsg : option AugmentedApprove) : M JsValue :=
  let prevBalances :=
    toBNMap env (match approveMsg with Some a => aug_balances a | None => ∅ end) in
  let newBalances := toBNMap env (ns_balances newMsg) in
  let balancesAfterFees := ns_balancesAfterFees newMsg in
  if negb (FollowerRules.isValidTransition channel prevBalances newBalances) then
    console_error
      ("validatatorWorker: " ++ channel_id channel
         ++ ": invalid transition requested in NewState")%string
      [LogBalances prevBalances; LogBalances newBalances] ;;;
    M_ret (nothingNew true)
  else if negb (isValidValidatorFees env channel newBalances balancesAfterFees) then
    console_error
      ("validatatorWorker: " ++ channel_id channel
         ++ ": invalid validator fees requested in NewState")%string
      [LogStrings (toBNStringMap env (inl newBalances));
       LogStrings (toBNStringMap env (inr balancesAfterFees))] ;;;
    M_ret (nothingNew true)
  else
    let whoami := whoami (adapter env) in
    let leader := spec_validators (spec channel) !! 0%nat in
    let otherValidators :=
      List.filter (fun v => negb (bool_decide (validator_id v = whoami)))
                  (spec_validators (spec channel)) in
    let stateRoot := ns_stateRoot newMsg in
    let signature := ns_signature newMsg in
    if negb (isValidRootHash env stateRoot channel balancesAfterFees) then
      console_error
        ("validatatorWorker: " ++ channel_id channel
           ++ ": invalid state root hash ")%string
        [LogString stateRoot] ;;;
      M_ret (nothingNew true)
    else
      match leader with
      | None => lift (Throw (TypeError "Cannot read property 'id' of undefined"))
      | Some leader =>
          isValidSig <- adapter_verify env (validator_id leader) stateRoot signature ;;
          if negb isValidSig then
            console_error
              ("validatatorWorker: " ++ channel_id channel
                 ++ ": invalid signature NewState")%string
              [LogBalances prevBalances; LogBalances newBalances] ;;;
            M_ret (nothingNew true)
          else
            let stateRootRaw := Buffer_from_hex env stateRoot in
            signature <- adapter_sign env stateRootRaw ;;
            healthy <- lift (FollowerRules.isHealthy (cfg_HEALTH_THRESHOLD_PROMILLES env)
                               balances newBalances) ;;
            persistAndPropagate env otherValidators channel
              (MsgApproveState (mkApproveState stateRoot signature healthy None))
      end.

(** [Promise.all] joins the two reads of the collection; the rejection of
    [augmentWithBalances] rejects the whole tick before anything else
    runs.  The branch on a latest message that is not a NewState cannot be
    taken (the query filters on [msg.type]); it is there because
    [getLatestMsg] returns a message of any type. *)
Definition tick (col : Collection) (channel : Channel) : M JsValue :=
  let newMsg := getLatestMsg col (channel_id channel) (validators channel !! 0%nat)
                  "NewState" in
  approveMsg <- lift (augmentWithBalances col
                        (getLatestMsg col (channel_id channel)
                           (Some (whoami (adapter env))) "ApproveState")) ;;
  res <- (if negb (bool_decide (is_Some newMsg)) || latestIsApproved newMsg approveMsg
          then
            res <- call (ProducerTick channel false) (producer_tick env channel false) ;;
            M_ret (nothingNew (negb (bool_decide (is_Some (res_newStateTree res)))))
          else
            res <- call (ProducerTick channel true) (producer_tick env channel true) ;;
            match newMsg with
            | Some (MsgNewState newMsg) =>
                onNewState (res_channel res) (res_balances res) newMsg approveMsg
            | _ => lift (Throw (TypeError "latest message is not a NewState"))
            end) ;;
  heartbeatIfNothingNew env channel res.

End WithEnv.
End Follower.

(** ** follower.js, the revision that reports an invalid NewState to [onError] *)

Module FollowerOnError.
Section WithEnv.

Variable env : Env.

Definition getLatestMsg (col : Collection) (channelId : string) (from : option string)
    (type : string) : option Msg :=
  match limit 1 (sort_desc (fun d => msg_created (doc_msg d)) missing_or_ltb
                   (find (latestMsgQuery channelId from type) col)) with
  | o :: _ => Some (doc_msg o)
  | [] => None
  end.

Definition onError (channel : Channel) (reason : string) (newMsg : NewStateMsg)
    (prevBalancesString newBalancesString : string) : M JsValue :=
  call (OnError channel reason newMsg prevBalancesString newBalancesString)
       (onError_result env channel reason newMsg prevBalancesString newBalancesString).

Definition onNewState (channel : Channel) (balances : gmap string Z)
    (newMsg : NewStateMsg) (approveMsg : option AugmentedApprove) : M JsValue :=
  let prevBalances :=
    toBNMap env (match approveMsg with Some a => aug_balances a | None => ∅ end) in
  let newBalances := toBNMap env (ns_balances newMsg) in
  let balancesAfterFees := ns_balancesAfterFees newMsg in
  let prevBalancesString := toStringBN env prevBalances in
  let newBalancesString := toStringBN env newBalances in
  if negb (FollowerRules.isValidTransition channel prevBalances newBalances) then
    onError channel "InvalidTransition" newMsg prevBalancesString newBalancesString
  else if negb (isValidValidatorFees env channel newBalances balancesAfterFees) then
    onError channel "InvalidValidatorFees" newMsg prevBalancesString newBalancesString
  else
    let whoami := whoami (adapter env) in
    let leader := spec_validators (spec channel) !! 0%nat in
    let otherValidators :=
      List.filter (fun v => negb (bool_decide (validator_id v = whoami)))
                  (spec_validators (spec channel)) in
    let stateRoot := ns_stateRoot newMsg in
    let signature := ns_signature newMsg in
    if negb (isValidRootHash env stateRoot channel balancesAfterFees) then
      onError channel "InvalidRootHash" newMsg prevBalancesString newBalancesString
    else
      match leader with
      | None => lift (Throw (TypeError "Cannot read property 'id' of undefined"))
      | Some leader =>
          isValidSig <- adapter_verify env (validator_id leader) stateRoot signature ;;
          if negb isValidSig then
            onError channel "InvalidSignature" newMsg prevBalancesString newBalancesString
          else
            let stateRootRaw := Buffer_from_hex env stateRoot in
            signature <- adapter_sign env stateRootRaw ;;
            healthy <- lift (FollowerRules.isHealthy (cfg_HEALTH_THRESHOLD_PROMILLES env)
                               balances newBalances) ;;
            persistAndPropagate env otherValidators channel
              (MsgApproveState
                 (mkApproveState stateRoot signature healthy (Some (Date_now env))))
      end.

(** [Promise.all] joins the two reads of the collection; the rejection of
    [augmentWithBalances] rejects the whole tick before anything else
    runs.  The branch on a latest message that is not a NewState cannot be
    taken (the query filters on [msg.type]); it is there because
    [getLatestMsg] returns a message of any type. *)
Definition tick (col : Collection) (channel : Channel) : M JsValue :=
  let newMsg := getLatestMsg col (channel_id channel) (validators channel !! 0%nat)
                  "NewState" in
  approveMsg <- lift (augmentWithBalances col
                        (getLatestMsg col (channel_id channel)
                           (Some (whoami (adapter env))) "ApproveState")) ;;
  res <- (if negb (bool_decide (is_Some newMsg)) || latestIsApproved newMsg approveMsg
          then
            res <- call (ProducerTick channel false) (producer_tick env channel false) ;;
            M_ret (nothingNew (negb (bool_decide (is_Some (res_newStateTree res)))))
          else
            res <- call (ProducerTick channel true) (producer_tick env channel true) ;;
            match newMsg with
            | Some (MsgNewState newMsg) =>
                onNewState (res_channel res) (res_balances res) newMsg approveMsg
            | _ => lift (Throw (TypeError "latest message is not a NewState"))
            end) ;;
  heartbeatIfNothingNew env channel res.

End WithEnv.
End FollowerOnError.

(** ** The follower's rules and checks, in the specification's words

    The definitions of this module follow the specification, not the code;
    the statements below compare the code with them.  [sum] and [mins] are
    the two sums of section 4.2, written as folds over the map itself;
    [validTransition] is its list of four conditions; [feesRecomputed] is
    the comparison behind the reason [InvalidValidatorFees] of section 4.7;
    [checks] and [firstFailure] are "validate, in order, rejecting on first
    failure with that reason". *)

Module Spec.

(** [sum(m)]: the sum of the balances of [m]. *)
Definition sum (m : gmap string Z) : Z := map_fold (fun _ v acc => v + acc) 0 m.

(** [Σ_k min(our[k], approved[k] or 0)], over the keys [k] of [our]. *)
Definition mins (our approved : gmap string Z) : Z :=
  map_fold (fun k v acc => Z.min v (default 0 (approved !! k)) + acc) 0 our.

(** "[next[k]] exists and [next[k] ≥ v]" *)
Definition covered (next : gmap string Z) (k : string) (v : Z) : Prop :=
  match next !! k with
  | Some w => v <= w
  | None => False
  end.

#[global] Instance covered_dec (next : gmap string Z) (k : string) (v : Z)
    : Decision (covered next k v) :=
  match next !! k as o
    return Decision (match o with Some w => v <= w | None => False end)
  with
  | Some w => decide (v <= w)
  | None => decide False
  end.

(** The four conditions of [isValidTransition], in the order of 4.2. *)
Definition validTransition (channel : Channel) (prev next : gmap string Z) : bool :=
  bool_decide (sum prev <= sum next
               ∧ sum next <= depositAmount channel
               ∧ map_Forall (covered next) prev
               ∧ map_Forall (fun _ w => 0 <= w) next).

(** The check that "recomputed [getBalancesAfterFees(next, channel)] ≠
    [newMsg.balancesAfterFees]" fails: the fee tree recomputed from [next]
    equals the one of the message, both taken in the base-10 string form
    of the wire (4.1). *)
Definition feesRecomputed (env : Env) (channel : Channel) (next : gmap string Z)
    (newMsg : NewStateMsg) : bool :=
  bool_decide (toBNStringMap env (inl (getBalancesAfterFeesTree env next channel))
               = toBNStringMap env (inr (ns_balancesAfterFees newMsg))).

Definition checks (env : Env) (channel : Channel) (prev next : gmap string Z)
    (newMsg : NewStateMsg) (leader : Validator) : list (string * bool) :=
  [ ("InvalidTransition", validTransition channel prev next);
    ("InvalidValidatorFees", feesRecomputed env channel next newMsg);
    ("InvalidRootHash",
      isValidRootHash env (ns_stateRoot newMsg) channel (ns_balancesAfterFees newMsg));
    ("InvalidSignature",
      verify (adapter env) (validator_id leader) (ns_stateRoot newMsg)
             (ns_signature newMsg)) ].

Definition firstFailure (env : Env) (channel : Channel) (prev next : gmap string Z)
    (newMsg : NewStateMsg) (leader : Validator) : option string :=
  fst <$> List.find (fun c => negb (snd c)) (checks env channel prev next newMsg leader).

(** The line the logging revision of follower.js writes for a reason. *)
Definition logged_as (channel : Channel) (reason : string) : string :=
  ("validatatorWorker: " ++ channel_id channel ++
   (if String.eqb reason "InvalidTransition"
    then ": invalid transition requested in NewState"
    else if String.eqb reason "InvalidValidatorFees"
    then ": invalid validator fees requested in NewState"
    else if String.eqb reason "InvalidRootHash"
    then ": invalid state root hash "
    else ": invalid signature NewState"))%string.

End Spec.

(** ** routes/schemas.js: the [createChannel] schema

    A Joi schema is embedded by what it accepts: a predicate on the value
    found under a key, [None] standing for an absent key.  The combinators
    are Joi's, applied in the order of the source's method chain
    ([s ▷ f] is [s.f()]).  Joi's URI matcher and its conversion of numeric
    strings belong to the library and stay parameters. *)

Notation "s ▷ f" := (f s) (at level 45, left associativity, only parsing).

Module Joi.

Definition Schema : Type := option JsValue → bool.

Fixpoint all_chars (p : ascii → bool) (s : string) : bool :=
  match s with
  | EmptyString => true
  | String c rest => p c && all_chars p rest
  end.

Definition is_digit (c : ascii) : bool :=
  (48 <=? nat_of_ascii c)%nat && (nat_of_ascii c <=? 57)%nat.

(** The regular expression [/^\d+$/]. *)
Definition all_digits (s : string) : bool :=
  negb (String.eqb s "") && all_chars is_digit s.

Fixpoint assoc (k : string) (fields : list (string * JsValue)) : option JsValue :=
  match fields with
  | [] => None
  | (k', v) :: rest => if String.eqb k k' then Some v else assoc k rest
  end.

Definition is_integer (q : Q) : bool := (Qden (Qred q) =? 1)%positive.

Section Library.

Variable uri_matches : list string → string → bool.
Variable number_of_string : string → option Q.

(** [Joi.string()]: a non-empty string; an absent key passes. *)
Definition string_ : Schema := fun v =>
  match v with
  | None => true
  | Some (JsString s) => negb (String.eqb s "")
  | Some _ => false
  end.

Definition required (s : Schema) : Schema := fun v =>
  match v with
  | None => false
  | Some _ => s v
  end.

Definition regex (pattern : string → bool) (s : Schema) : Schema := fun v =>
  s v && match v with
         | Some (JsString x) => pattern x
         | _ => true
         end.

Definition uri (scheme : list string) (s : Schema) : Schema := fun v =>
  s v && match v with
         | Some (JsString x) => uri_matches scheme x
         | _ => true
         end.

(** [.default(d)] fills in an absent key and rejects nothing. *)
Definition default_ (d : JsValue) (s : Schema) : Schema := s.

(** [Joi.number()]: a number, or a string Joi converts to one. *)
Definition number_ : Schema := fun v =>
  match v with
  | None => true
  | Some (JsNumber _) => true
  | Some (JsString x) => bool_decide (is_Some (number_of_string x))
  | Some _ => false
  end.

Definition integer (s : Schema) : Schema := fun v =>
  s v && match v with
         | Some (JsNumber q) => is_integer q
         | Some (JsString x) =>
             match number_of_string x with
             | Some q => is_integer q
             | None => true
             end
         | _ => true
         end.

(** [Joi.object()] without keys: any object. *)
Definition object_any : Schema := fun v =>
  match v with
  | None => true
  | Some (JsObject _) => true
  | Some _ => false
  end.

(** [Joi.object({ ... })]: every declared key validates and no other key
    is present. *)
Definition object_ (keys : list (string * Schema)) : Schema := fun v =>
  match v with
  | None => true
  | Some (JsObject fields) =>
      forallb (fun '(k, s) => s (assoc k fields)) keys
      && forallb (fun '(k, _) => existsb (String.eqb k) keys.*1) fields
  | Some _ => false
  end.

Definition array_ : Schema := fun v =>
  match v with
  | None => true
  | Some (JsArray _) => true
  | Some _ => false
  end.

Definition items (item : Schema) (s : Schema) : Schema := fun v =>
  s v && match v with
         | Some (JsArray xs) => forallb (fun x => item (Some x)) xs
         | _ => true
         end.

(** [.length(n)] on an array. *)
Definition length_ (n : nat) (s : Schema) : Schema := fun v =>
  s v && match v with
         | Some (JsArray xs) => (List.length xs =? n)%nat
         | _ => true
         end.

Definition numericString : Schema := string_ ▷ regex all_digits.

Definition createChannel : list (string * Schema) :=
  [ ("id", string_ ▷ required);
    ("depositAsset", string_ ▷ required);
    ("depositAmount", numericString ▷ required);
    ("validUntil", number_ ▷ integer ▷ required);
    ("creator", string_ ▷ required);
    ("spec",
      object_
        [ ("adUnits", array_ ▷ items object_any);
          ("targeting", array_ ▷ items object_any);
          ("validators",
            array_
              ▷ items (object_
                         [ ("id", string_ ▷ required);
                           ("url", string_ ▷ uri ["http"; "https"] ▷ required);
                           ("fee", numericString ▷ required) ])
              ▷ required
              ▷ length_ 2);
          ("withdrawPeriodStart", number_ ▷ required);
          ("minPerImpression", numericString ▷ default_ (JsString "1"));
          ("maxPerImpression", numericString ▷ default_ (JsString "1"));
          ("eventSubmission", object_ [ ("allow", array_ ▷ items object_any) ]);
          ("nonce", string_);
          ("created", number_);
          ("activeFrom", number_) ]
        ▷ required) ].

(** The request body is validated against the compiled object schema. *)
Definition accepts_createChannel (body : JsValue) : bool :=
  object_ createChannel (Some body).

End Library.

End Joi.

(** *** Reading a channel's amounts off a request body *)

(** [new BN(s, 10)] on a string of decimal digits. *)
Fixpoint decimal_digits (acc : Z) (s : string) : option Z :=
  match s with
  | EmptyString => Some acc
  | String c rest =>
      if Joi.is_digit c
      then decimal_digits (10 * acc + (Z.of_nat (nat_of_ascii c) - 48)) rest
      else None
  end.

Definition BN_of_decimal (s : string) : option Z :=
  if String.eqb s "" then None else decimal_digits 0 s.

Definition js_get (k : string) (v : JsValue) : option JsValue :=
  match v with
  | JsObject fields => Joi.assoc k fields
  | _ => None
  end.

Definition js_amount (v : JsValue) : option Z :=
  match v with
  | JsString s => BN_of_decimal s
  | _ => None
  end.

(** [body.depositAmount] *)
Definition body_depositAmount (body : JsValue) : option Z :=
  js_get "depositAmount" body ≫= js_amount.

(** [body.spec.validators.map(v => v.fee)] *)
Definition body_fees (body : JsValue) : option (list Z) :=
  match js_get "spec" body ≫= js_get "validators" with
  | Some (JsArray xs) => mapM (fun x => js_get "fee" x ≫= js_amount) xs
  | _ => None
  end.

Definition sumFees (fees : list Z) : Z := fold_right Z.add 0 fees.

(** "The sum of validator fees must not exceed depositAmount." *)
Definition feesWithinDeposit (body : JsValue) : Prop :=
  ∃ d fees, body_depositAmount body = Some d ∧ body_fees body = Some fees
            ∧ sumFees fees <= d.

(** ** A sample deployment

    The dummy adapter and one concrete environment, channel and collection
    contents, on which the statements below are exercised. *)

Module Sample.

(** [getDummySig] of test/lib.js. *)
Definition getDummySig (hash from : string) : string :=
  ("Dummy adapter signature for " ++ hash ++ " by " ++ from)%string.

(** Modelled from the spec: the dummy adapter of [adapters] (not among
    the sources), "sign(hash) = Dummy adapter signature for <hex> by <id>;
    verify parses that format".  A buffer is represented by its
    hexadecimal text. *)
Definition dummyAdapter (identity : string) : Adapter :=
  {| whoami := identity;
     verify := fun id stateRoot signature =>
                 String.eqb signature (getDummySig stateRoot id);
     sign := fun raw => getDummySig (string_of_list_ascii raw) identity |}.

(** Modelled from the spec: [toBNMap] of [./lib] (not among the sources),
    "base-10 string form on the wire, converted to big-integer
    internally". *)
Definition toBNMap_decimal (wire : gmap string string) : gmap string Z :=
  (fun s => default 0 (BN_of_decimal s)) <$> wire.

Definition toBNStringMap_decimal (m : gmap string Z + gmap string string)
    : gmap string string :=
  match m with
  | inl bns => (pretty : Z → string) <$> bns
  | inr strings => strings
  end.

Definition root1 : string :=
  "1111111111111111111111111111111111111111111111111111111111111111".
Definition root2 : string :=
  "2222222222222222222222222222222222222222222222222222222222222222".

Definition channel : Channel :=
  {| channel_id := "awesomeTestChannel";
     depositAmount := 1000;
     validators := ["awesomeLeader"; "awesomeFollower"];
     spec := {| spec_validators :=
                  [ mkValidator "awesomeLeader" "http://localhost:8005" "0";
                    mkValidator "awesomeFollower" "http://localhost:8006" "0" ] |} |}.

(** Both validators charge no fee, so the fee tree leaves the balances as
    they are; the only balance tree this environment knows a root for is
    the one committed to by [root1] and [root2]. *)
Definition env (ours : gmap string Z) : Env :=
  {| adapter := dummyAdapter "awesomeFollower";
     producer_tick := fun ch _ => mkProducerRes ch ours None;
     heartbeatIfNothingNew_result := fun _ _ => JsUndefined;
     persistAndPropagate_result := fun _ _ _ => JsUndefined;
     onError_result := fun _ _ _ _ _ => JsUndefined;
     toBNMap := toBNMap_decimal;
     toBNStringMap := toBNStringMap_decimal;
     toStringBN := fun m => pretty (FollowerRules.sumMap m);
     getBalancesAfterFeesTree := fun balances _ => balances;
     isValidRootHash := fun stateRoot _ _ =>
                          String.eqb stateRoot root1 || String.eqb stateRoot root2;
     Buffer_from_hex := list_ascii_of_string;
     Date_now := 1554000012000;
     cfg_HEALTH_THRESHOLD_PROMILLES := 950 |}.

Definition newState (stateRoot : string) (balances : gmap string string)
    (created : Z) : NewStateMsg :=
  {| ns_stateRoot := stateRoot;
     ns_signature := getDummySig stateRoot "awesomeLeader";
     ns_balances := balances;
     ns_balancesAfterFees := balances;
     ns_created := Some created |}.

Definition approveState (stateRoot : string) (created : Z) : ApproveStateMsg :=
  {| as_stateRoot := stateRoot;
     as_signature := getDummySig stateRoot "awesomeFollower";
     as_isHealthy := true;
     as_created := Some created |}.

Definition three : gmap string string := {[ "myAwesomePublisher" := "3" ]}.
Definition five : gmap string string := {[ "myAwesomePublisher" := "5" ]}.
Definition seven : gmap string string := {[ "myAwesomePublisher" := "7" ]}.

(** The leader's NewState [root1] has been approved. *)
Definition approvedCollection : Collection :=
  [ mkDoc (mkObjectId 1554000000 100 1) "awesomeTestChannel" "awesomeLeader"
      (MsgNewState (newState root1 three 1554000000104));
    mkDoc (mkObjectId 1554000010 200 1) "awesomeTestChannel" "awesomeFollower"
      (MsgApproveState (approveState root1 1554000010500)) ].

(** An ApproveState of ours whose NewState is not in the collection. *)
Definition orphanCollection : Collection :=
  [ mkDoc (mkObjectId 1554000010 200 1) "awesomeTestChannel" "awesomeFollower"
      (MsgApproveState (approveState root1 1554000010500)) ].

(** Two NewState messages of the leader that reached the collection
    within one second through two sentry processes: the one inserted last
    carries the smaller ObjectId (the bytes unique to its process are
    smaller), and the smaller [created] (the leader's clock was set back
    in between). *)
Definition sameSecondCollection : Collection :=
  [ mkDoc (mkObjectId 1554000000 900 1) "awesomeTestChannel" "awesomeLeader"
      (MsgNewState (newState root1 three 1554000000731));
    mkDoc (mkObjectId 1554000000 100 1) "awesomeTestChannel" "awesomeLeader"
      (MsgNewState (newState root2 five 1554000000104)) ].

Definition P : string := "myAwesomePublisher".

(** A stand-in for Joi's URI matcher: the string starts with one of the
    schemes and a colon. *)
Definition uri_matches (scheme : list string) (s : string) : bool :=
  existsb (fun sc => String.prefix (sc ++ ":") s) scheme.

(** A request body for channel creation, with the three amounts left
    open. *)
Definition channelBody (depositAmount fee0 fee1 : string) : JsValue :=
  JsObject
    [ ("id", JsString "awesomeTestChannel");
      ("depositAsset", JsString "DAI");
      ("depositAmount", JsString depositAmount);
      ("validUntil", JsNumber (4102444800 # 1));
      ("creator", JsString "awesomeCreator");
      ("spec", JsObject
         [ ("validators", JsArray
              [ JsObject [ ("id", JsString "awesomeLeader");
                           ("url", JsString "http://localhost:8005");
                           ("fee", JsString fee0) ];
                JsObject [ ("id", JsString "awesomeFollower");
                           ("url", JsString "http://localhost:8006");
                           ("fee", JsString fee1) ] ]);
           ("withdrawPeriodStart", JsNumber (4102444800 # 1)) ]) ].

End Sample.

(** ** Shapes of the follower's traces *)

(** A call [onNewState] may make without signing or persisting anything. *)
Definition reportOnly (e : Effect) : bool :=
  match e with
  | ConsoleError _ _ | AdapterVerify _ _ _ | OnError _ _ _ _ _ => true
  | _ => false
  end.

(** A call of [tick] itself, as opposed to one of [onNewState]. *)
Definition tickCall (e : Effect) : bool :=
  match e with
  | ProducerTick _ _ | HeartbeatIfNothingNew _ _ => true
  | _ => false
  end.

(** The three ways [onNewState] can end: without signing (reporting, or
    throwing before the adapter is reached), signed but thrown by the health
    division, or signed and persisted. *)
Definition onNewState_shape (env : Env) (channel : Channel) (newMsg : NewStateMsg)
    (r : M JsValue) : Prop :=
  let stateRoot := ns_stateRoot newMsg in
  let others :=
    List.filter (fun v => negb (bool_decide (validator_id v = whoami (adapter env))))
                (spec_validators (spec channel)) in
  let signed := sign (adapter env) (Buffer_from_hex env stateRoot) in
  (forallb reportOnly (trace r) = true)
  ∨ (∃ leader e,
       r = ([AdapterVerify (validator_id leader) stateRoot (ns_signature newMsg);
             AdapterSign (Buffer_from_hex env stateRoot)], Throw e))
  ∨ (∃ leader healthy created v,
       spec_validators (spec channel) !! 0%nat = Some leader
       ∧ verify (adapter env) (validator_id leader) stateRoot (ns_signature newMsg) = true
       ∧ r = ([AdapterVerify (validator_id leader) stateRoot (ns_signature newMsg);
               AdapterSign (Buffer_from_hex env stateRoot);
               PersistAndPropagate others channel
                 (MsgApproveState (mkApproveState stateRoot signed healthy created))],
              Ok v)).

(** ** bin/validatorWorker.js

    The worker's own control flow: which tick a channel gets, what becomes
    of a tick that fails or does not finish in time, how a cycle over all
    channels ends, and with which code the process exits.  The ticks, the
    sentry's channel list and the adapter's [init] and [unlock] are the
    environment's; a tick and the [SentryInterface] constructor are taken
    to return (a promise, an object) rather than throw.  Ticks of one cycle
    run concurrently: the embedding records which ticks a cycle starts (in
    order) and which failures it logs (in no order), not how the ticks
    interleave. *)

Module ValidatorWorker.

(** How a promise settles; a rejection carries the error's message. *)
Inductive Settled (A : Type) : Type :=
| Resolved (a : A)
| Rejected (reason : string).

Arguments Resolved {A} a.
Arguments Rejected {A} reason.

(** [isLeader ? leader.tick : follower.tick] *)
Inductive TickKind : Type := LeaderTick | FollowerTick.

(** [Array.prototype.findIndex]: the index of the first element that
    satisfies [p], or -1. *)
Fixpoint findIndex_from {A : Type} (p : A → bool) (i : Z) (l : list A) : Z :=
  match l with
  | [] => -1
  | x :: rest => if p x then i else findIndex_from p (i + 1) rest
  end.

Definition findIndex {A : Type} (p : A → bool) (l : list A) : Z := findIndex_from p 0 l.

(** [tick_settles kind channel] is what the tick has come to when the tick
    timeout elapses: [None] while it is still pending. *)
Record WorkerEnv : Type := mkWorkerEnv {
  worker_adapter : Adapter;
  adapter_init : Settled unit;
  adapter_unlock : Settled unit;
  channel_list : Settled (list Channel);
  tick_settles : TickKind → Channel → option (Settled JsValue);
  cfg_MAX_CHANNELS : Z;
  cfg_WAIT_TIME : Z
}.

(** What [validatorTick] has done once its promise resolves: the tick it
    started, and the line it logged if the tick failed. *)
Record TickRun : Type := mkTickRun {
  run_kind : TickKind;
  run_channel : Channel;
  run_logged : option (string * string);
  run_result : JsValue
}.

(** How a cycle over all channels ends: with the lines of
    [logPostChannelsTick], or with ['allChannelsTick failed'] and a reason. *)
Inductive CycleEnd : Type :=
| Processed (lines : list string)
| Failed (reason : string).

(** One [allChannelsTick]: the ticks it started, in order; whether it waited
    for them; and how it ended. *)
Record Cycle : Type := mkCycle {
  cycle_started : list TickRun;
  cycle_awaited : bool;
  cycle_end : CycleEnd
}.


Section WithEnv.

Variable env : WorkerEnv.

(** [Promise.race([tick(adapter, iface, channel), timeout(msg)])] *)
Definition race (kind : TickKind) (channel : Channel) : Settled JsValue :=
  match tick_settles env kind channel with
  | Some settled => settled
  | None => Rejected ("tick for " ++ channel_id channel ++ " timed out")%string
  end.

(** The assertion is thrown synchronously; past it, the returned promise
    resolves whatever the tick does, since the [catch] handler logs the
    rejection and returns [console.error]'s [undefined]. *)
Definition validatorTick (channel : Channel) : outcome TickRun :=
  let validatorIdx :=
    findIndex (fun v => String.eqb (validator_id v) (whoami (worker_adapter env)))
              (spec_validators (spec channel)) in
  if validatorIdx =? -1 then
    Throw (AssertionError "validatorTick: processing a channel where we are not validating")
  else
    let isLeader := validatorIdx =? 0 in
    let tick := if isLeader then LeaderTick else FollowerTick in
    match race tick channel with
    | Resolved v => Ok (mkTickRun tick channel None v)
    | Rejected e =>
        Ok (mkTickRun tick channel
              (Some ((channel_id channel ++ " tick failed")%string, e)) JsUndefined)
    end.

Definition logPostChannelsTick (channels : list JsValue) : list string :=
  ("processed " ++ pretty (Z.of_nat (List.length channels)) ++ " channels")%string
  :: (if cfg_MAX_CHANNELS env <=? Z.of_nat (List.length channels)
      then [("WARNING: channel limit cfg.MAX_CHANNELS="
               ++ pretty (cfg_MAX_CHANNELS env) ++ " reached")%string]
      else []).

(** [channels.map(validatorTick)]: the calls are made one after the other;
    the first that throws ends the [map], with the ticks of the channels
    before it started and nobody waiting for them. *)
Fixpoint startTicks (channels : list Channel) : list TickRun * outcome unit :=
  match channels with
  | [] => ([], Ok tt)
  | channel :: rest =>
      match validatorTick channel with
      | Throw e => ([], Throw e)
      | Ok run => let '(runs, r) := startTicks rest in (run :: runs, r)
      end
  end.

Definition error_message (e : js_error) : string :=
  match e with
  | AssertionError m | TypeError m => m
  end.

Definition allChannelsTick : Cycle :=
  match channel_list env with
  | Rejected e => mkCycle [] false (Failed e)
  | Resolved channels =>
      match startTicks channels with
      | (runs, Throw e) => mkCycle runs false (Failed (error_message e))
      | (runs, Ok _) => mkCycle runs true (Processed (logPostChannelsTick (run_result <$> runs)))
      end
  end.



End WithEnv.

End ValidatorWorker.

(** ** test/lib.js *)

Module TestLib.

Record Event : Type := mkEvent {
  event_type : string;
  event_publisher : string
}.

(** The [for] loop of [genEvents], [count] iterations of [events.push]. *)
Fixpoint genEvents_loop (count : nat) (event : Event) (events : list Event) : list Event :=
  match count with
  | O => events
  | S n => genEvents_loop n event (events ++ [event])
  end.

(** [genEvents(n, pubName, type = 'IMPRESSION')].  [defaultPubName] is
    [dummyVals.ids.publisher] of [./prep-db/mongo]; an argument left out is
    [None]; [pubName || defaultPubName] falls back for [undefined] and for
    the empty string. *)
Definition genEvents (defaultPubName : string) (n : Z) (pubName type : option string)
    : list Event :=
  let type := default "IMPRESSION" type in
  let publisher :=
    match pubName with
    | Some name => if String.eqb name "" then defaultPubName else name
    | None => defaultPubName
    end in
  genEvents_loop (Z.to_nat n) (mkEvent type publisher) [].

End TestLib.

(** [channel] lists the worker's identity among its validators. *)
Definition validatedBy (env : ValidatorWorker.WorkerEnv) (channel : Channel) : bool :=
  existsb (fun v => String.eqb (validator_id v)
                      (whoami (ValidatorWorker.worker_adapter env)))
          (spec_validators (spec channel)).

(** ** routes/schemas.js: the [validatorMessage] schema

    A key of [validatorMessage] may ask for more depending on the [type]
    found beside it: [s.when('type', { is, then })] validates with [s], and
    with [s] concatenated with [then] when [type] is one of the values of
    [is].  Joi's
    matcher of ISO 8601 dates and its conversion of strings to booleans
    belong to the library and stay parameters. *)

Module JoiMessage.

Import Joi.

(** A key's schema, given the fields of the object the key sits in. *)
Definition Rule : Type := list (string * JsValue) → Schema.

Definition always (s : Schema) : Rule := fun _ => s.

(** [a.concat(b)] of two schemas of one type: both sets of rules apply. *)
Definition concat (a b : Schema) : Schema := fun v => a v && b v.

Definition when_ (ref : string) (is_ : list string) (then_ : Schema) (s : Schema) : Rule :=
  fun fields =>
    match assoc ref fields with
    | Some (JsString x) => if existsb (String.eqb x) is_ then concat s then_ else s
    | _ => s
    end.

(** [.valid([...])] on a string. *)
Definition valid (allowed : list string) (s : Schema) : Schema := fun v =>
  s v && match v with
         | Some (JsString x) => existsb (String.eqb x) allowed
         | _ => true
         end.

(** [.length(n)] on a string. *)
Definition string_length (n : nat) (s : Schema) : Schema := fun v =>
  s v && match v with
         | Some (JsString x) => (String.length x =? n)%nat
         | _ => true
         end.

(** The regular expression [/./]: some character that is no line
    terminator. *)
Fixpoint any_char (s : string) : bool :=
  match s with
  | EmptyString => false
  | String c rest =>
      negb ((nat_of_ascii c =? 10)%nat || (nat_of_ascii c =? 13)%nat) || any_char rest
  end.

(** [Joi.object().keys().pattern(regex, value)]: an object whose keys all
    match [regex] and hold what [value] accepts. *)
Definition pattern_object (regex : string → bool) (value : Schema) : Schema := fun v =>
  match v with
  | None => true
  | Some (JsObject fields) => forallb (fun '(k, x) => regex k && value (Some x)) fields
  | Some _ => false
  end.

(** [Joi.object({ ... })] with keys that look at their siblings. *)
Definition object_rules (keys : list (string * Rule)) : Schema := fun v =>
  match v with
  | None => true
  | Some (JsObject fields) =>
      forallb (fun '(k, rule) => rule fields (assoc k fields)) keys
      && forallb (fun '(k, _) => existsb (String.eqb k) keys.*1) fields
  | Some _ => false
  end.

Section Library.

Variable iso_date : string → bool.
Variable boolean_of_string : string → option bool.

Definition isoDate (s : Schema) : Schema := fun v =>
  s v && match v with
         | Some (JsString x) => iso_date x
         | _ => true
         end.

(** [Joi.boolean()]: a boolean, or a string Joi converts to one. *)
Definition boolean_ : Schema := fun v =>
  match v with
  | None => true
  | Some (JsBool _) => true
  | Some (JsString x) => bool_decide (is_Some (boolean_of_string x))
  | Some _ => false
  end.

Definition validatorMessage : Schema :=
  object_rules
    [ ("type",
        always (string_
                  ▷ valid ["NewState"; "ApproveState"; "Heartbeat"; "Accounting"; "RejectState"]
                  ▷ required));
      ("stateRoot",
        string_ ▷ string_length 64
          ▷ when_ "type" ["NewState"; "ApproveState"; "Heartbeat"] (string_ ▷ required));
      ("signature",
        string_
          ▷ when_ "type" ["NewState"; "ApproveState"; "Heartbeat"] (string_ ▷ required));
      ("lastEvAggr",
        string_ ▷ isoDate
          ▷ when_ "type" ["Accounting"] (string_ ▷ isoDate ▷ required));
      ("balances",
        pattern_object any_char numericString
          ▷ when_ "type" ["NewState"; "Accounting"]
              (pattern_object any_char numericString ▷ required));
      ("timestamp",
        string_ ▷ isoDate
          ▷ when_ "type" ["Heartbeat"] (string_ ▷ isoDate ▷ required));
      ("balancesBeforeFees",
        pattern_object any_char numericString
          ▷ when_ "type" ["Accounting"]
              (pattern_object any_char numericString ▷ required));
      ("reason", string_ ▷ when_ "type" ["RejectState"] (string_ ▷ required));
      ("isHealthy", boolean_ ▷ when_ "type" ["ApproveState"] (boolean_ ▷ required)) ].

End Library.

End JoiMessage.

(** A value the schema takes for a map of amounts: an object whose values
    are all non-negative decimal integers. *)
Definition amountsObject (v : JsValue) : Prop :=
  ∃ fields, v = JsObject fields
            ∧ ∀ k x, In (k, x) fields → ∃ z, js_amount x = Some z ∧ 0 <= z.

(** ** Further sample data *)

Module SampleMore.


(** A channel of two other validators. *)
Definition foreignChannel : Channel :=
  {| channel_id := "anotherChannel";
     depositAmount := 1000;
     validators := ["someLeader"; "someFollower"];
     spec := {| spec_validators :=
                  [ mkValidator "someLeader" "http://localhost:9005" "0";
                    mkValidator "someFollower" "http://localhost:9006" "0" ] |} |}.

(** The follower's worker: the adapter unlocks, the sentry lists our channel
    and then one we do not validate, and ticks resolve in time. *)
Definition workerEnv : ValidatorWorker.WorkerEnv :=
  {| ValidatorWorker.worker_adapter := Sample.dummyAdapter "awesomeFollower";
     ValidatorWorker.adapter_init := ValidatorWorker.Resolved tt;
     ValidatorWorker.adapter_unlock := ValidatorWorker.Resolved tt;
     ValidatorWorker.channel_list :=
       ValidatorWorker.Resolved [Sample.channel; foreignChannel];
     ValidatorWorker.tick_settles :=
       fun _ _ => Some (ValidatorWorker.Resolved JsUndefined);
     ValidatorWorker.cfg_MAX_CHANNELS := 512;
     ValidatorWorker.cfg_WAIT_TIME := 10000 |}.

(** A NewState message as the sentry receives it. *)
Definition newStateFields : list (string * JsValue) :=
  [ ("type", JsString "NewState");
    ("stateRoot", JsString Sample.root1);
    ("signature", JsString (Sample.getDummySig Sample.root1 "awesomeLeader"));
    ("balances", JsObject [ (Sample.P, JsString "3") ]) ].

(** Stand-ins for Joi's date matcher and boolean conversion. *)
Definition iso_date (s : string) : bool := negb (String.eqb s "").

Definition boolean_of_string (s : string) : option bool :=
  if String.eqb s "true" then Some true
  else if String.eqb s "false" then Some false
  else None.

End SampleMore.

(** * Properties *)

(** ** Sums over balance maps *)

Section FollowerRulesFacts.

Import FollowerRules.

Lemma fold_add_shift (bns : list Z) (acc : Z) :
  fold_left (fun a b => BN.add a b) bns acc = acc + sumBNs bns.
Proof.
  unfold sumBNs. revert acc.
  induction bns as [|b bns IH]; intros acc; simpl.
  - lia.
  - rewrite IH, (IH (BN.add 0 b)). unfold BN.add. lia.
Qed.

Lemma sumBNs_cons (b : Z) (bns : list Z) : sumBNs (b :: bns) = b + sumBNs bns.
Proof. unfold sumBNs at 1. simpl. rewrite fold_add_shift. unfold BN.add. lia. Qed.

Lemma sumBNs_perm (l1 l2 : list Z) : l1 ≡ₚ l2 → sumBNs l1 = sumBNs l2.
Proof. induction 1; rewrite ?sumBNs_cons; lia. Qed.

Lemma sumBNs_nonneg (bns : list Z) : Forall (fun b => 0 <= b) bns → 0 <= sumBNs bns.
Proof.
  induction 1 as [|b bns Hb _ IH]; [unfold sumBNs; simpl | rewrite sumBNs_cons]; lia.
Qed.

Lemma sumBNs_ext {A : Type} (f g : A → Z) (l : list A) :
  (∀ x, In x l → f x = g x) → sumBNs (map f l) = sumBNs (map g l).
Proof. intros H. f_equal. by apply map_ext_in. Qed.

(** [sumMap] is the sum of the values: it is 0 on the empty map and grows
    by [v] when a fresh key is bound to [v]. *)
Lemma sumMap_empty : sumMap ∅ = 0.
Proof. unfold sumMap, Object_values. by rewrite map_to_list_empty. Qed.

Lemma sumMap_insert (m : gmap string Z) (k : string) (v : Z) :
  m !! k = None → sumMap (<[k:=v]> m) = v + sumMap m.
Proof.
  intros Hk. unfold sumMap, Object_values.
  rewrite (sumBNs_perm _ (v :: (map_to_list m).*2)).
  - apply sumBNs_cons.
  - by rewrite (map_to_list_insert m k v Hk).
Qed.

Lemma BN_min_spec (a b : Z) : BN.min a b = Z.min a b.
Proof. unfold BN.min. destruct (Z.ltb_spec a b); lia. Qed.

Lemma entry_lookup (m : gmap string Z) (k : string) (v : Z) :
  In (k, v) (Object_entries m) ↔ m !! k = Some v.
Proof. unfold Object_entries. rewrite <- list_elem_of_In. apply elem_of_map_to_list. Qed.

Lemma sumMap_entries (m : gmap string Z) :
  sumMap m = sumBNs (map (fun '(_, v) => v) (Object_entries m)).
Proof. unfold sumMap, Object_values, Object_entries. f_equal. Qed.

(** [sumMins] is the sum, over the entries [(k, v)] of [our], of the
    smaller of [v] and [approved[k]], or of [v] and 0 where [approved] has
    no [k]. *)
Lemma sumMins_entries (our approved : gmap string Z) :
  sumMins our approved =
  sumBNs (map (fun '(k, v) => Z.min v (default 0 (approved !! k))) (Object_entries our)).
Proof.
  unfold sumMins, Object_keys, Object_entries. f_equal.
  assert (Hall : Forall (fun '(k, v) => our !! k = Some v) (map_to_list our)).
  { apply Forall_forall. intros [k v] Hin. by apply elem_of_map_to_list. }
  induction Hall as [|[k v] l Hkv _ IH]; csimpl; [done|].
  rewrite IH, BN_min_spec. f_equal.
  by rewrite (lookup_total_correct our k v Hkv).
Qed.

Lemma sumMap_nonneg (m : gmap string Z) : nonNegative m → 0 <= sumMap m.
Proof.
  intros Hm. apply sumBNs_nonneg. unfold Object_values.
  apply Forall_forall. intros v Hv.
  apply list_elem_of_fmap in Hv as [[k v'] [-> Hin]].
  apply elem_of_map_to_list in Hin. by apply (Hm k).
Qed.

Lemma sumMins_nonneg (our approved : gmap string Z) :
  nonNegative our → nonNegative approved → 0 <= sumMins our approved.
Proof.
  intros Ho Ha. rewrite sumMins_entries. apply sumBNs_nonneg.
  apply Forall_forall. intros v Hv.
  apply list_elem_of_In, in_map_iff in Hv as [[k w] [<- Hin]].
  apply entry_lookup in Hin. specialize (Ho k w Hin). simpl in Ho.
  destruct (approved !! k) as [a|] eqn:Hk; simpl; [specialize (Ha k a Hk); simpl in Ha|]; lia.
Qed.

(** ** The sums of the code are the sums of the specification *)

Lemma sumBNs_map_fold (g : string → Z → Z) (m : gmap string Z) :
  sumBNs (map (fun '(k, v) => g k v) (Object_entries m))
  = map_fold (fun k v acc => g k v + acc) 0 m.
Proof.
  rewrite map_fold_foldr. unfold Object_entries.
  induction (map_to_list m) as [|[k v] l IH]; [reflexivity|].
  simpl. rewrite sumBNs_cons, IH. reflexivity.
Qed.

Lemma sumMap_sum (m : gmap string Z) : sumMap m = Spec.sum m.
Proof. rewrite sumMap_entries. apply (sumBNs_map_fold (fun _ v => v)). Qed.

Lemma sumMins_mins (our approved : gmap string Z) :
  sumMins our approved = Spec.mins our approved.
Proof.
  rewrite sumMins_entries.
  apply (sumBNs_map_fold (fun k v => Z.min v (default 0 (approved !! k)))).
Qed.

(** [Spec.sum] is the sum: 0 on the empty map, and [v] more with a fresh
    key bound to [v]. *)
Lemma Spec_sum_empty : Spec.sum ∅ = 0.
Proof. apply map_fold_empty. Qed.

Lemma Spec_sum_insert (m : gmap string Z) (k : string) (v : Z) :
  m !! k = None → Spec.sum (<[k:=v]> m) = v + Spec.sum m.
Proof.
  intros Hk. unfold Spec.sum. apply map_fold_insert_L; [|exact Hk].
  intros. lia.
Qed.

(** ** [isValidTransition] *)

Lemma covered_iff (next : gmap string Z) (k : string) (v : Z) :
  Spec.covered next k v ↔ ∃ w, next !! k = Some w ∧ v <= w.
Proof.
  unfold Spec.covered. destruct (next !! k) as [w|].
  - split; [intros H; by exists w | by intros (w' & [= <-] & H)].
  - split; [done | by intros (w & ? & _)].
Qed.

Lemma covers_iff (prev next : gmap string Z) :
  forallb (fun '(acc, bal) =>
             match next !! acc with
             | None => false
             | Some nextBal => BN.gte nextBal bal
             end) (Object_entries prev) = true
  ↔ ∀ k v, prev !! k = Some v → ∃ w, next !! k = Some w ∧ v <= w.
Proof.
  rewrite forallb_forall. split.
  - intros H k v Hk. apply entry_lookup in Hk. specialize (H _ Hk). simpl in H.
    destruct (next !! k) as [w|]; [|discriminate].
    exists w. split; [done|]. by apply Z.leb_le.
  - intros H [k v] Hk. apply entry_lookup in Hk.
    destruct (H _ _ Hk) as (w & -> & Hle). by apply Z.leb_le.
Qed.

Lemma none_negative_iff (next : gmap string Z) :
  forallb (fun '(_, bal) => negb (BN.isNeg bal)) (Object_entries next) = true
  ↔ nonNegative next.
Proof.
  rewrite forallb_forall. unfold BN.isNeg. split.
  - intros H k w Hk. apply entry_lookup in Hk. specialize (H _ Hk). simpl in H.
    apply negb_true_iff, Z.ltb_ge in H. lia.
  - intros H [k w] Hk. apply entry_lookup in Hk.
    apply negb_true_iff, Z.ltb_ge. specialize (H _ _ Hk). simpl in H. lia.
Qed.

(** C1: [isValidTransition channel prev next] is true exactly when the sum
    of [next] is at least the sum of [prev], the sum of [next] is at most
    the channel's deposit, every key of [prev] is a key of [next] with a
    balance at least as large, and no balance of [next] is negative.  The
    sums are the specification's [Spec.sum]; that the code's [sumMap]
    computes them is part of the proof. *)
Theorem isValidTransition_iff (channel : Channel) (prev next : gmap string Z) :
  isValidTransition channel prev next = true ↔
    Spec.sum prev <= Spec.sum next
    ∧ Spec.sum next <= depositAmount channel
    ∧ (∀ k v, prev !! k = Some v → ∃ w, next !! k = Some w ∧ v <= w)
    ∧ (∀ k w, next !! k = Some w → 0 <= w).
Proof.
  unfold isValidTransition, BN.gte, BN.lte.
  rewrite !andb_true_iff, covers_iff, none_negative_iff, !Z.leb_le.
  rewrite !sumMap_sum.
  unfold nonNegative, map_Forall.
  tauto.
Qed.

(** The code's predicate is the specification's. *)
Lemma isValidTransition_spec (channel : Channel) (prev next : gmap string Z) :
  isValidTransition channel prev next = Spec.validTransition channel prev next.
Proof.
  apply eq_true_iff_eq.
  unfold isValidTransition, Spec.validTransition, BN.gte, BN.lte.
  rewrite bool_decide_eq_true.
  rewrite !andb_true_iff, covers_iff, none_negative_iff, !Z.leb_le, !sumMap_sum.
  unfold nonNegative, map_Forall.
  setoid_rewrite covered_iff. tauto.
Qed.

Lemma isValidTransition_nonNegative (channel : Channel) (prev next : gmap string Z) :
  isValidTransition channel prev next = true → nonNegative next.
Proof.
  unfold isValidTransition. rewrite !andb_true_iff, none_negative_iff. tauto.
Qed.

(** C9: valid transitions compose: from [a] to [b] and from [b] to [d]
    valid, on one channel, makes [a] to [d] valid. *)
Theorem isValidTransition_trans (c : Channel) (a b d : gmap string Z) :
  isValidTransition c a b = true →
  isValidTransition c b d = true →
  isValidTransition c a d = true.
Proof.
  unfold isValidTransition, BN.gte, BN.lte.
  rewrite !andb_true_iff, !covers_iff, !none_negative_iff, !Z.leb_le.
  intros [[[Hab _] Hkab] _] [[[Hbd Hdep] Hkbd] Hneg].
  repeat split; [lia | done | | done].
  intros k v Hk.
  destruct (Hkab _ _ Hk) as (w & Hw & Hvw).
  destruct (Hkbd _ _ Hw) as (x & Hx & Hwx).
  exists x. split; [done | lia].
Qed.

Lemma isValidTransition_trans_witness :
  isValidTransition Sample.channel {[ Sample.P := 1 ]} {[ Sample.P := 3 ]} = true
  ∧ isValidTransition Sample.channel {[ Sample.P := 3 ]} {[ Sample.P := 7 ]} = true
  ∧ isValidTransition Sample.channel {[ Sample.P := 1 ]} {[ Sample.P := 7 ]} = true.
Proof.
  assert (H13 : isValidTransition Sample.channel {[ Sample.P := 1 ]} {[ Sample.P := 3 ]} = true)
    by (vm_compute; reflexivity).
  assert (H37 : isValidTransition Sample.channel {[ Sample.P := 3 ]} {[ Sample.P := 7 ]} = true)
    by (vm_compute; reflexivity).
  split; [exact H13|]. split; [exact H37|].
  exact (isValidTransition_trans Sample.channel _ _ _ H13 H37).
Defined.

(** ** [isHealthy] *)

Lemma isHealthy_unfold (T : Z) (our approved : gmap string Z) :
  isHealthy T our approved =
    if sumMap our <=? sumMins our approved then Ok true
    else if sumMap our =? 0 then Throw (AssertionError "Assertion failed")
    else Ok (T <=? Z.quot (sumMins our approved * 1000) (sumMap our)).
Proof.
  unfold isHealthy, BN.gte, BN.div, BN.mul, BN.lt, HEALTH_THRESHOLD.
  destruct (sumMap our <=? sumMins our approved); [done|].
  destruct (sumMap our =? 0); [done|]. simpl.
  destruct (Z.ltb_spec (Z.quot (sumMins our approved * 1000) (sumMap our)) T),
           (Z.leb_spec T (Z.quot (sumMins our approved * 1000) (sumMap our)));
    try reflexivity; lia.
Qed.

(** The division is the only way [isHealthy] can fail, and it fails exactly
    when the own balances sum to zero while the minima sum to less. *)
Lemma isHealthy_raises_iff (T : Z) (our approved : gmap string Z) :
  (∃ e, isHealthy T our approved = Throw e)
  ↔ sumMap our = 0 ∧ sumMins our approved < 0.
Proof.
  rewrite isHealthy_unfold.
  destruct (Z.leb_spec (sumMap our) (sumMins our approved)).
  - split; [intros [e ?]; discriminate | lia].
  - destruct (Z.eqb_spec (sumMap our) 0).
    + split; [lia | by eexists].
    + split; [intros [e ?]; discriminate | lia].
Qed.

Lemma isHealthy_returns (T : Z) (our approved : gmap string Z) :
  nonNegative our → nonNegative approved → ∃ b, isHealthy T our approved = Ok b.
Proof.
  intros Ho Ha.
  pose proof (sumMins_nonneg our approved Ho Ha) as Hmins.
  destruct (isHealthy T our approved) as [b|e] eqn:E; [by exists b|].
  assert (Hr : ∃ e, isHealthy T our approved = Throw e) by by exists e.
  apply isHealthy_raises_iff in Hr. lia.
Qed.

(** C2: for balance maps [our] and [approved] (no balance is negative),
    with [mins] the sum over the keys [k] of [our] of
    [min(our[k], approved[k] or 0)] and [total] the sum of [our],
    [isHealthy] returns, and returns true exactly when [mins >= total] or
    the integer quotient [mins * 1000 / total] reaches the threshold; when
    [total] is zero it returns true. *)
Theorem isHealthy_iff (T : Z) (our approved : gmap string Z) :
  nonNegative our → nonNegative approved →
  let mins := Spec.mins our approved in
  let total := Spec.sum our in
  (∃ b, isHealthy T our approved = Ok b)
  ∧ (isHealthy T our approved = Ok true ↔ total <= mins ∨ T <= (mins * 1000) / total)
  ∧ (total = 0 → isHealthy T our approved = Ok true).
Proof.
  intros Ho Ha mins total.
  pose proof (sumMins_nonneg our approved Ho Ha) as Hmins.
  pose proof (sumMap_nonneg our Ho) as Htotal.
  rewrite isHealthy_unfold. rewrite sumMins_mins in Hmins |- *.
  rewrite sumMap_sum in Htotal |- *. fold mins total in Hmins, Htotal |- *.
  destruct (Z.leb_spec total mins) as [Hle|Hlt].
  - split; [by exists true|]. split; [tauto | done].
  - destruct (Z.eqb_spec total 0) as [H0|H0]; [lia|].
    rewrite Z.quot_div_nonneg by lia.
    split; [by eexists|]. split; [|lia].
    destruct (Z.leb_spec T ((mins * 1000) / total)) as [Hq|Hq].
    + tauto.
    + split; [discriminate | lia].
Qed.

Lemma nonNegative_singleton (k : string) (v : Z) : 0 <= v → nonNegative {[ k := v ]}.
Proof. intros Hv i x Hi. apply lookup_singleton_Some in Hi as [_ <-]. exact Hv. Qed.

Lemma isHealthy_iff_witness :
  nonNegative {[ Sample.P := 5 ]} ∧ nonNegative {[ Sample.P := 1 ]}
  ∧ (isHealthy 950 {[ Sample.P := 5 ]} {[ Sample.P := 1 ]} = Ok true
     ↔ Spec.sum {[ Sample.P := 5 ]} <= Spec.mins {[ Sample.P := 5 ]} {[ Sample.P := 1 ]}
       ∨ 950 <= (Spec.mins {[ Sample.P := 5 ]} {[ Sample.P := 1 ]} * 1000)
                / Spec.sum {[ Sample.P := 5 ]}).
Proof.
  assert (H5 : nonNegative {[ Sample.P := 5 ]}) by (apply nonNegative_singleton; lia).
  assert (H1 : nonNegative {[ Sample.P := 1 ]}) by (apply nonNegative_singleton; lia).
  split; [exact H5|]. split; [exact H1|].
  exact (proj1 (proj2 (isHealthy_iff 950 {[ Sample.P := 5 ]} {[ Sample.P := 1 ]} H5 H1))).
Defined.

(** The hypothesis on [approved] is used: on a map with a negative value,
    which is no balance map and which [isValidTransition] keeps away from
    [isHealthy] in the follower, a zero total makes the division raise. *)
Lemma isHealthy_zero_total_raises :
  sumMap {[ Sample.P := 0 ]} = 0
  ∧ isHealthy 950 {[ Sample.P := 0 ]} {[ Sample.P := -1 ]}
    = Throw (AssertionError "Assertion failed").
Proof. split; vm_compute; reflexivity. Qed.

(** C6: when every key of [our] is a key of [approved] with a balance at
    least as large, [isHealthy our approved] returns true. *)
Theorem isHealthy_pointwise_le (T : Z) (our approved : gmap string Z) :
  (∀ k v, our !! k = Some v → ∃ w, approved !! k = Some w ∧ v <= w) →
  isHealthy T our approved = Ok true.
Proof.
  intros Hle. unfold isHealthy.
  assert (Heq : sumMins our approved = sumMap our).
  { rewrite sumMins_entries, sumMap_entries. apply sumBNs_ext.
    intros [k v] Hin. apply entry_lookup in Hin.
    destruct (Hle _ _ Hin) as (w & -> & Hvw). simpl. lia. }
  rewrite Heq. unfold BN.gte. by rewrite Z.leb_refl.
Qed.

Lemma isHealthy_pointwise_le_witness :
  (∀ k v, ({[ Sample.P := 3 ]} : gmap string Z) !! k = Some v →
          ∃ w, ({[ Sample.P := 4 ]} : gmap string Z) !! k = Some w ∧ v <= w)
  ∧ isHealthy 950 {[ Sample.P := 3 ]} {[ Sample.P := 4 ]} = Ok true.
Proof.
  assert (H : ∀ k v, ({[ Sample.P := 3 ]} : gmap string Z) !! k = Some v →
                     ∃ w, ({[ Sample.P := 4 ]} : gmap string Z) !! k = Some w ∧ v <= w).
  { intros k v Hk. apply lookup_singleton_Some in Hk as [<- <-].
    exists 4. split; [reflexivity | lia]. }
  split; [exact H | exact (isHealthy_pointwise_le 950 _ _ H)].
Defined.

Lemma sumMins_agree (our approved1 approved2 : gmap string Z) :
  (∀ k, is_Some (our !! k) → default 0 (approved1 !! k) = default 0 (approved2 !! k)) →
  sumMins our approved1 = sumMins our approved2.
Proof.
  intros Hagree. rewrite !sumMins_entries. apply sumBNs_ext.
  intros [k v] Hin. apply entry_lookup in Hin.
  by rewrite (Hagree k (mk_is_Some _ _ Hin)).
Qed.

(** C10: [isHealthy our approved] depends on [approved] only through the
    balances it gives, 0 if none, to the keys of [our]. *)
Theorem isHealthy_depends_on_own_keys (T : Z) (our approved1 approved2 : gmap string Z) :
  (∀ k, is_Some (our !! k) → default 0 (approved1 !! k) = default 0 (approved2 !! k)) →
  isHealthy T our approved1 = isHealthy T our approved2.
Proof.
  intros Hagree. unfold isHealthy.
  assert (Heq : sumMins our approved1 = sumMins our approved2).
  { rewrite !sumMins_entries. apply sumBNs_ext.
    intros [k v] Hin. apply entry_lookup in Hin.
    by rewrite (Hagree k (mk_is_Some _ _ Hin)). }
  by rewrite Heq.
Qed.

Lemma isHealthy_depends_on_own_keys_witness :
  (∀ k, is_Some (({[ Sample.P := 5 ]} : gmap string Z) !! k) →
        default 0 (({[ Sample.P := 1 ]} : gmap string Z) !! k)
        = default 0 ((<[ "anotherPublisher" := 9 ]> {[ Sample.P := 1 ]} : gmap string Z) !! k))
  ∧ isHealthy 950 {[ Sample.P := 5 ]} {[ Sample.P := 1 ]}
    = isHealthy 950 {[ Sample.P := 5 ]} (<[ "anotherPublisher" := 9 ]> {[ Sample.P := 1 ]}).
Proof.
  assert (H : ∀ k, is_Some (({[ Sample.P := 5 ]} : gmap string Z) !! k) →
        default 0 (({[ Sample.P := 1 ]} : gmap string Z) !! k)
        = default 0 ((<[ "anotherPublisher" := 9 ]> {[ Sample.P := 1 ]} : gmap string Z) !! k)).
  { intros k [v Hk]. apply lookup_singleton_Some in Hk as [<- _]. reflexivity. }
  split; [exact H | exact (isHealthy_depends_on_own_keys 950 _ _ _ H)].
Defined.

(** Entries of [approved] at keys that [our] lacks change nothing. *)
Corollary isHealthy_ignores_foreign_keys (T : Z) (our approved : gmap string Z)
    (k : string) (v : Z) :
  our !! k = None → isHealthy T our (<[k:=v]> approved) = isHealthy T our approved.
Proof.
  intros Hk. unfold isHealthy. rewrite (sumMins_agree our (<[k:=v]> approved) approved); [done|].
  intros k' [w Hk']. rewrite lookup_insert_ne; [done|]. intros <-. congruence.
Qed.

End FollowerRulesFacts.

(** ** The collection: sorting, and the newest document *)

Section MongoFacts.

Context {K : Type} (key : Doc → K) (ltb : K → K → bool).

Lemma insert_desc_In (d x : Doc) (sorted : list Doc) :
  In x (insert_desc key ltb d sorted) ↔ x = d ∨ In x sorted.
Proof.
  induction sorted as [|e rest IH]; simpl.
  - intuition.
  - destruct (ltb (key d) (key e)); simpl; rewrite ?IH; intuition.
Qed.

Lemma sort_desc_In (x : Doc) (docs : list Doc) :
  In x (sort_desc key ltb docs) ↔ In x docs.
Proof.
  induction docs as [|d docs IH]; simpl; [tauto|].
  rewrite insert_desc_In, IH. intuition.
Qed.

Lemma sort_desc_nil_iff (docs : list Doc) : sort_desc key ltb docs = [] ↔ docs = [].
Proof.
  split; [|intros ->; reflexivity].
  destruct docs as [|d docs]; [reflexivity|]. intros Hs.
  assert (Hin : In d (sort_desc key ltb (d :: docs))) by (apply sort_desc_In; by left).
  rewrite Hs in Hin. destruct Hin.
Qed.

Lemma limit_1_In (docs : list Doc) (o : Doc) (rest : list Doc) :
  limit 1 (sort_desc key ltb docs) = o :: rest → In o docs.
Proof.
  unfold limit. intros H. apply sort_desc_In.
  destruct (sort_desc key ltb docs) as [|e l]; simpl in H; [discriminate|].
  injection H as -> _. by left.
Qed.

Lemma limit_1_nil (docs : list Doc) :
  limit 1 (sort_desc key ltb docs) = [] ↔ docs = [].
Proof.
  unfold limit. pose proof (sort_desc_nil_iff docs) as Hs.
  destruct (sort_desc key ltb docs); simpl; [exact Hs|].
  split; [discriminate|]. intros H. by apply Hs in H.
Qed.

Lemma latest_Some (query : Doc → bool) (col : Collection) (m : Msg) :
  match limit 1 (sort_desc key ltb (find query col)) with
  | o :: _ => Some (doc_msg o)
  | [] => None
  end = Some m →
  ∃ d, In d col ∧ query d = true ∧ doc_msg d = m.
Proof.
  destruct (limit 1 _) as [|o rest] eqn:Hlim; [discriminate|].
  intros [= <-]. apply limit_1_In in Hlim.
  apply filter_In in Hlim as [Hin Hq]. by exists o.
Qed.

Lemma latest_None (query : Doc → bool) (col : Collection) :
  match limit 1 (sort_desc key ltb (find query col)) with
  | o :: _ => Some (doc_msg o)
  | [] => None
  end = None ↔
  ∀ d, In d col → query d = false.
Proof.
  destruct (limit 1 _) as [|o rest] eqn:Hlim.
  - apply (proj1 (limit_1_nil _)) in Hlim. split; [intros _ d Hd|done].
    apply not_true_is_false. intros Hq.
    assert (Hin : In d (find query col)) by (apply filter_In; done).
    rewrite Hlim in Hin. destruct Hin.
  - split; [discriminate|]. intros Hnone.
    apply limit_1_In, filter_In in Hlim as [Hin Hq].
    rewrite (Hnone _ Hin) in Hq. discriminate.
Qed.

Hypothesis ltb_asym : ∀ a b, ltb a b = true → ltb b a = false.
Hypothesis ltb_geb_trans : ∀ a b c, ltb a b = false → ltb b c = false → ltb a c = false.

Lemma ltb_irrefl (a : K) : ltb a a = false.
Proof. destruct (ltb a a) eqn:E; [|reflexivity]. by rewrite (ltb_asym _ _ E) in E. Qed.

Lemma sort_desc_head_dominates (docs : list Doc) (h : Doc) (rest : list Doc) :
  sort_desc key ltb docs = h :: rest → dominates key ltb h docs.
Proof.
  revert h rest. induction docs as [|d docs IH]; intros h rest Hs; [discriminate|].
  simpl in Hs. intros x Hx.
  destruct (sort_desc key ltb docs) as [|e l] eqn:Hsorted.
  - apply sort_desc_nil_iff in Hsorted as ->. simpl in Hs. injection Hs as <- _.
    destruct Hx as [<-|[]]. apply ltb_irrefl.
  - specialize (IH e l eq_refl). simpl in Hs.
    destruct (ltb (key d) (key e)) eqn:Hde; injection Hs as <- _.
    + destruct Hx as [<-|Hx]; [by apply ltb_asym | by apply IH].
    + destruct Hx as [<-|Hx]; [apply ltb_irrefl|].
      apply (ltb_geb_trans _ (key e)); [exact Hde | by apply IH].
Qed.

(** What [.sort({ key: -1 }).limit(1)] selects carries a greatest key. *)
Lemma limit_1_dominates (docs : list Doc) (o : Doc) (rest : list Doc) :
  limit 1 (sort_desc key ltb docs) = o :: rest → dominates key ltb o docs.
Proof.
  unfold limit. intros H.
  destruct (sort_desc key ltb docs) as [|e l] eqn:Hs; simpl in H; [discriminate|].
  injection H as -> _. by apply (sort_desc_head_dominates _ _ l).
Qed.

(** When the keys grow strictly along the collection, the document that
    sorts first is the one inserted last. *)
Lemma limit_1_last (docs : list Doc) (o : Doc) (rest : list Doc) :
  StronglySorted (fun a b => ltb (key a) (key b) = true) docs →
  limit 1 (sort_desc key ltb docs) = o :: rest →
  last docs = Some o.
Proof.
  intros Hinc Hlim.
  pose proof (limit_1_In _ _ _ Hlim) as Hin.
  pose proof (limit_1_dominates _ _ _ Hlim) as Hdom.
  clear Hlim. induction Hinc as [|d docs Hsorted IH Hall]; [destruct Hin|].
  destruct docs as [|e docs'].
  - destruct Hin as [<-|[]]. reflexivity.
  - rewrite last_cons_cons.
    destruct Hin as [<-|Hin].
    + exfalso. apply Forall_cons in Hall as [Hde _].
      rewrite (Hdom e) in Hde; [discriminate | right; by left].
    + apply IH; [exact Hin|]. intros x Hx. apply Hdom. by right.
Qed.

End MongoFacts.

Lemma ObjectId_ltb_spec (a b : ObjectId) :
  ObjectId_ltb a b = true ↔
    oid_seconds a < oid_seconds b
    ∨ (oid_seconds a = oid_seconds b
       ∧ (oid_process a < oid_process b
          ∨ (oid_process a = oid_process b ∧ oid_counter a < oid_counter b))).
Proof.
  unfold ObjectId_ltb.
  rewrite !orb_true_iff, !andb_true_iff, !orb_true_iff, !andb_true_iff,
          !Z.ltb_lt, !Z.eqb_eq. tauto.
Qed.

Lemma ObjectId_ltb_asym (a b : ObjectId) : ObjectId_ltb a b = true → ObjectId_ltb b a = false.
Proof.
  intros H. apply not_true_is_false. intros H'.
  apply ObjectId_ltb_spec in H, H'. lia.
Qed.

Lemma ObjectId_geb_trans (a b c : ObjectId) :
  ObjectId_ltb a b = false → ObjectId_ltb b c = false → ObjectId_ltb a c = false.
Proof.
  intros H1 H2. apply not_true_is_false. intros H3.
  apply not_true_iff_false in H1, H2.
  rewrite ObjectId_ltb_spec in H1, H2, H3. lia.
Qed.

Lemma missing_or_ltb_asym (a b : option Z) :
  missing_or_ltb a b = true → missing_or_ltb b a = false.
Proof. destruct a, b; simpl; try done. rewrite Z.ltb_lt, Z.ltb_ge. lia. Qed.

Lemma missing_or_geb_trans (a b c : option Z) :
  missing_or_ltb a b = false → missing_or_ltb b c = false → missing_or_ltb a c = false.
Proof. destruct a, b, c; simpl; try done. rewrite !Z.ltb_ge. lia. Qed.

Lemma filter_StronglySorted {A : Type} (R : A → A → Prop) (p : A → bool) (l : list A) :
  StronglySorted R l → StronglySorted R (List.filter p l).
Proof.
  induction 1 as [|a l Hs IH Hall]; simpl; [constructor|].
  destruct (p a); [|exact IH]. constructor; [exact IH|].
  apply Forall_forall. intros x Hx. apply list_elem_of_In, filter_In in Hx as [Hx _].
  rewrite Forall_forall in Hall. apply Hall. by apply list_elem_of_In.
Qed.

(** ** [getLatestMsg] *)

Lemma latestMsgQuery_type (channelId : string) (from : option string) (type : string)
    (d : Doc) :
  latestMsgQuery channelId from type d = true → msg_type (doc_msg d) = type.
Proof.
  unfold latestMsgQuery. rewrite !andb_true_iff. intros [_ H].
  by apply bool_decide_eq_true in H.
Qed.

(** Both revisions answer [null] exactly when no stored message matches,
    and otherwise a stored message that matches. *)
Lemma getLatestMsg_null (col : Collection) (channelId : string) (from : option string)
    (type : string) :
  (Follower.getLatestMsg col channelId from type = None
     ↔ ∀ d, In d col → latestMsgQuery channelId from type d = false)
  ∧ (FollowerOnError.getLatestMsg col channelId from type = None
     ↔ ∀ d, In d col → latestMsgQuery channelId from type d = false).
Proof. split; apply latest_None. Qed.

Lemma getLatestMsg_stored (col : Collection) (channelId : string) (from : option string)
    (type : string) (m : Msg) :
  Follower.getLatestMsg col channelId from type = Some m
  ∨ FollowerOnError.getLatestMsg col channelId from type = Some m →
  ∃ d, In d col ∧ latestMsgQuery channelId from type d = true ∧ doc_msg d = m.
Proof. intros [H|H]; exact (latest_Some _ _ _ _ _ H). Qed.

(** When ObjectIds grow strictly with insertion, the first revision does
    answer the matching message inserted last; the second does when
    [msg.created] grows strictly with insertion. *)
Lemma getLatestMsg_last_inserted (col : Collection) (channelId : string)
    (from : option string) (type : string) (m : Msg) :
  (StronglySorted (fun a b => ObjectId_ltb (doc_id a) (doc_id b) = true) col →
   Follower.getLatestMsg col channelId from type = Some m →
   doc_msg <$> last (find (latestMsgQuery channelId from type) col) = Some m)
  ∧ (StronglySorted (fun a b => missing_or_ltb (msg_created (doc_msg a))
                                               (msg_created (doc_msg b)) = true) col →
     FollowerOnError.getLatestMsg col channelId from type = Some m →
     doc_msg <$> last (find (latestMsgQuery channelId from type) col) = Some m).
Proof.
  split; intros Hinc Hlatest.
  - unfold Follower.getLatestMsg in Hlatest.
    destruct (limit 1 _) as [|o rest] eqn:Hlim; [discriminate|].
    injection Hlatest as <-.
    rewrite (limit_1_last doc_id ObjectId_ltb ObjectId_ltb_asym ObjectId_geb_trans _ o rest);
      [reflexivity | by apply filter_StronglySorted | exact Hlim].
  - unfold FollowerOnError.getLatestMsg in Hlatest.
    destruct (limit 1 _) as [|o rest] eqn:Hlim; [discriminate|].
    injection Hlatest as <-.
    rewrite (limit_1_last (fun d => msg_created (doc_msg d)) missing_or_ltb
               missing_or_ltb_asym missing_or_geb_trans _ o rest);
      [reflexivity | by apply filter_StronglySorted | exact Hlim].
Qed.

(** C8, on a collection the code can meet: two NewState messages of the
    leader stored within one second.  The message inserted last is the one
    with [root2]; both revisions of [getLatestMsg] answer the one with
    [root1], inserted before it. *)
Theorem getLatestMsg_not_last_inserted :
  let query := latestMsgQuery "awesomeTestChannel" (Some "awesomeLeader") "NewState" in
  doc_msg <$> last (find query Sample.sameSecondCollection)
    = Some (MsgNewState (Sample.newState Sample.root2 Sample.five 1554000000104))
  ∧ Follower.getLatestMsg Sample.sameSecondCollection
      "awesomeTestChannel" (Some "awesomeLeader") "NewState"
    = Some (MsgNewState (Sample.newState Sample.root1 Sample.three 1554000000731))
  ∧ FollowerOnError.getLatestMsg Sample.sameSecondCollection
      "awesomeTestChannel" (Some "awesomeLeader") "NewState"
    = Some (MsgNewState (Sample.newState Sample.root1 Sample.three 1554000000731)).
Proof. repeat split; vm_compute; reflexivity. Qed.

(** ** [augmentWithBalances] *)

Lemma msg_type_NewState (m : Msg) : msg_type m = "NewState" → ∃ n, m = MsgNewState n.
Proof. destruct m; simpl; intros H; try discriminate. by eexists. Qed.


Lemma augmentWithBalances_orphan (col : Collection) (approveMsg : Msg) :
  ¬ joinable col approveMsg →
  augmentWithBalances col (Some approveMsg)
  = Throw (AssertionError "cannot find NewState message corresponding to the ApproveState").
Proof.
  intros Hno. unfold augmentWithBalances, findOne.
  destruct (List.find _ col) as [o|] eqn:Hfind; [|done].
  exfalso. apply Hno. apply find_some in Hfind as [Hin Ho].
  apply andb_true_iff in Ho as [H1 H2].
  apply bool_decide_eq_true in H1, H2. by exists o.
Qed.

(** ** [tick] *)

(** The latest NewState found by [tick] is a NewState, so the branch of the
    embedding for a message of another type is never taken. *)
Lemma getLatestMsg_NewState (col : Collection) (channelId : string) (from : option string)
    (m : Msg) :
  Follower.getLatestMsg col channelId from "NewState" = Some m
  ∨ FollowerOnError.getLatestMsg col channelId from "NewState" = Some m →
  ∃ n, m = MsgNewState n.
Proof.
  intros H. apply getLatestMsg_stored in H as (d & _ & Hq & <-).
  by apply msg_type_NewState, (latestMsgQuery_type channelId from).
Qed.

Section TickFacts.

Variable env : Env.
Variable col : Collection.
Variable channel : Channel.




(** Whatever the collection holds, an orphan ApproveState of ours rejects
    the tick before the producer runs. *)
Lemma tick_rejected (a : Msg) :
  ¬ joinable col a →
  (Follower.getLatestMsg col (channel_id channel) (Some (whoami (adapter env)))
     "ApproveState" = Some a →
   Follower.tick env col channel = rejectedTick)
  ∧ (FollowerOnError.getLatestMsg col (channel_id channel) (Some (whoami (adapter env)))
       "ApproveState" = Some a →
     FollowerOnError.tick env col channel = rejectedTick).
Proof.
  intros Hno. split; intros Hours.
  - unfold Follower.tick. by rewrite Hours, (augmentWithBalances_orphan col a Hno).
  - unfold FollowerOnError.tick. by rewrite Hours, (augmentWithBalances_orphan col a Hno).
Qed.


End TickFacts.

(** The quiet tick makes two calls, neither of which belongs to
    [onNewState] or emits an ApproveState. *)
Lemma quietTick_trace (env : Env) (channel : Channel) :
  ∃ res, trace (quietTick env channel)
         = [ProducerTick channel false; HeartbeatIfNothingNew channel res]
         ∧ existsb emitsApproveState (trace (quietTick env channel)) = false.
Proof. eexists. split; reflexivity. Qed.


(** A store that breaks the lifecycle rule: our ApproveState is stored
    without its NewState.  The assertion of [augmentWithBalances] then
    rejects the tick before the producer runs, the hard failure the design
    notes describe. *)
Lemma tick_orphan_ApproveState_rejected :
  Follower.getLatestMsg Sample.orphanCollection "awesomeTestChannel"
    (Some "awesomeLeader") "NewState" = None
  ∧ Follower.tick (Sample.env ∅) Sample.orphanCollection Sample.channel = rejectedTick
  ∧ FollowerOnError.getLatestMsg Sample.orphanCollection "awesomeTestChannel"
      (Some "awesomeLeader") "NewState" = None
  ∧ FollowerOnError.tick (Sample.env ∅) Sample.orphanCollection Sample.channel
    = rejectedTick.
Proof. repeat split; vm_compute; reflexivity. Qed.

(** ** [onNewState] *)

(** The code's fee check is the specification's comparison. *)
Lemma isValidValidatorFees_spec (env : Env) (channel : Channel) (next : gmap string Z)
    (newMsg : NewStateMsg) :
  isValidValidatorFees env channel next (ns_balancesAfterFees newMsg)
  = Spec.feesRecomputed env channel next newMsg.
Proof. unfold isValidValidatorFees, Spec.feesRecomputed. reflexivity. Qed.

Section OnNewStateFacts.

Variable env : Env.
Variable channel : Channel.
Variable balances : gmap string Z.
Variable newMsg : NewStateMsg.
Variable approveMsg : option AugmentedApprove.

Let prev := toBNMap env (match approveMsg with Some a => aug_balances a | None => ∅ end).
Let next := toBNMap env (ns_balances newMsg).
Let stateRoot := ns_stateRoot newMsg.
Let others :=
  List.filter (fun v => negb (bool_decide (validator_id v = whoami (adapter env))))
              (spec_validators (spec channel)).
Let signed := sign (adapter env) (Buffer_from_hex env stateRoot).
Let approve (healthy : bool) (created : option Z) : Msg :=
  MsgApproveState (mkApproveState stateRoot signed healthy created).

(** C3: [onNewState] applies the four checks in the order transition,
    validator fees, root hash, leader signature (the adapter is asked to
    verify only once the first three have passed), and stops at the first
    that fails, reporting that check's reason (a [console.error] line in
    the logging revision, the [reason] given to [onError] in the other)
    without signing or persisting anything.  Only when all four pass does
    it sign the stateRoot and persist-and-propagate one ApproveState with
    that stateRoot, the new signature and [isHealthy(balances, newBalances)],
    which is defined whenever the follower's own balances are not
    negative. *)
Theorem onNewState_checks_in_order (leader : Validator) :
  spec_validators (spec channel) !! 0%nat = Some leader →
  let verifyCall := AdapterVerify (validator_id leader) stateRoot (ns_signature newMsg) in
  let verifyCalls (reason : string) : list Effect :=
    if String.eqb reason "InvalidSignature" then [verifyCall] else [] in
  match Spec.firstFailure env channel prev next newMsg leader with
  | Some reason =>
      (∃ args, Follower.onNewState env channel balances newMsg approveMsg
               = (verifyCalls reason ++ [ConsoleError (Spec.logged_as channel reason) args],
                  Ok (nothingNew true)))
      ∧ FollowerOnError.onNewState env channel balances newMsg approveMsg
        = (verifyCalls reason
             ++ [OnError channel reason newMsg (toStringBN env prev) (toStringBN env next)],
           Ok (onError_result env channel reason newMsg
                 (toStringBN env prev) (toStringBN env next)))
  | None =>
      (∀ healthy,
         FollowerRules.isHealthy (cfg_HEALTH_THRESHOLD_PROMILLES env) balances next
           = Ok healthy →
         Follower.onNewState env channel balances newMsg approveMsg
           = ([verifyCall; AdapterSign (Buffer_from_hex env stateRoot);
               PersistAndPropagate others channel (approve healthy None)],
              Ok (persistAndPropagate_result env others channel (approve healthy None)))
         ∧ FollowerOnError.onNewState env channel balances newMsg approveMsg
           = ([verifyCall; AdapterSign (Buffer_from_hex env stateRoot);
               PersistAndPropagate others channel (approve healthy (Some (Date_now env)))],
              Ok (persistAndPropagate_result env others channel
                    (approve healthy (Some (Date_now env))))))
      ∧ (FollowerRules.nonNegative balances →
         ∃ healthy,
           FollowerRules.isHealthy (cfg_HEALTH_THRESHOLD_PROMILLES env) balances next
             = Ok healthy)
  end.
Proof.
  intros Hleader.
  unfold Spec.firstFailure, Spec.checks, Follower.onNewState, FollowerOnError.onNewState.
  fold prev next stateRoot.
  rewrite <- isValidTransition_spec, <- isValidValidatorFees_spec.
  rewrite Hleader. simpl List.find.
  destruct (FollowerRules.isValidTransition channel prev next) eqn:Htransition; simpl;
    [|split; [eexists|]; reflexivity].
  destruct (isValidValidatorFees env channel next (ns_balancesAfterFees newMsg)); simpl;
    [|split; [eexists|]; reflexivity].
  destruct (isValidRootHash env stateRoot channel (ns_balancesAfterFees newMsg)); simpl;
    [|split; [eexists|]; reflexivity].
  destruct (verify (adapter env) (validator_id leader) stateRoot (ns_signature newMsg));
    simpl; [|split; [eexists|]; reflexivity].
  split.
  - intros healthy ->. split; reflexivity.
  - intros Hours. apply isHealthy_returns; [exact Hours|].
    by apply (isValidTransition_nonNegative channel prev).
Qed.

(** The logging revision never reports a rejection to the peers: whatever
    its input, no call it makes persists a RejectState or reaches
    [onError]. *)
Lemma Follower_onNewState_reports_nothing :
  existsb reportsRejection
    (trace (Follower.onNewState env channel balances newMsg approveMsg)) = false.
Proof.
  unfold Follower.onNewState. fold prev next stateRoot.
  destruct (FollowerRules.isValidTransition channel prev next); [|reflexivity].
  destruct (isValidValidatorFees env channel next (ns_balancesAfterFees newMsg));
    [|reflexivity].
  destruct (isValidRootHash env stateRoot channel (ns_balancesAfterFees newMsg));
    [|reflexivity].
  simpl. destruct (spec_validators (spec channel) !! 0%nat) as [leader|]; [|reflexivity].
  simpl.
  destruct (verify (adapter env) (validator_id leader) stateRoot (ns_signature newMsg));
    [|reflexivity].
  simpl. destruct (FollowerRules.isHealthy _ balances next); reflexivity.
Qed.

(** Neither revision emits an ApproveState unless all four checks pass. *)
Lemma onNewState_no_ApproveState (leader : Validator) (reason : string) :
  spec_validators (spec channel) !! 0%nat = Some leader →
  Spec.firstFailure env channel prev next newMsg leader = Some reason →
  existsb emitsApproveState
    (trace (Follower.onNewState env channel balances newMsg approveMsg)) = false
  ∧ existsb emitsApproveState
      (trace (FollowerOnError.onNewState env channel balances newMsg approveMsg)) = false.
Proof.
  intros Hleader.
  unfold Spec.firstFailure, Spec.checks, Follower.onNewState, FollowerOnError.onNewState.
  fold prev next stateRoot.
  rewrite <- isValidTransition_spec, <- isValidValidatorFees_spec.
  rewrite Hleader. simpl List.find.
  destruct (FollowerRules.isValidTransition channel prev next); simpl;
    [|split; reflexivity].
  destruct (isValidValidatorFees env channel next (ns_balancesAfterFees newMsg)); simpl;
    [|split; reflexivity].
  destruct (isValidRootHash env stateRoot channel (ns_balancesAfterFees newMsg)); simpl;
    [|split; reflexivity].
  destruct (verify (adapter env) (validator_id leader) stateRoot (ns_signature newMsg));
    simpl; [discriminate | split; reflexivity].
Qed.

End OnNewStateFacts.

Lemma onNewState_checks_in_order_witness :
  spec_validators (spec Sample.channel) !! 0%nat
    = Some (mkValidator "awesomeLeader" "http://localhost:8005" "0")
  ∧ Follower.onNewState (Sample.env {[ Sample.P := 3 ]}) Sample.channel {[ Sample.P := 3 ]}
      (Sample.newState Sample.root1 Sample.three 1554000000104) None
    = ([AdapterVerify "awesomeLeader" Sample.root1
          (Sample.getDummySig Sample.root1 "awesomeLeader");
        AdapterSign (list_ascii_of_string Sample.root1);
        PersistAndPropagate
          [mkValidator "awesomeLeader" "http://localhost:8005" "0"] Sample.channel
          (MsgApproveState
             (mkApproveState Sample.root1
                (Sample.getDummySig Sample.root1 "awesomeFollower") true None))],
       Ok JsUndefined).
Proof.
  split; [reflexivity|].
  pose proof (onNewState_checks_in_order (Sample.env {[ Sample.P := 3 ]}) Sample.channel
                {[ Sample.P := 3 ]} (Sample.newState Sample.root1 Sample.three 1554000000104)
                None (mkValidator "awesomeLeader" "http://localhost:8005" "0") eq_refl) as H.
  vm_compute in H. destruct H as [H _]. destruct (H true eq_refl) as [H1 _].
  vm_compute. exact H1.
Defined.

(** C4, at the input of scenario S4: the approved balances are 7 and the
    leader's NewState claims 5.  The transition is invalid.  The logging
    revision of follower.js writes one line to the console and returns
    [{ nothingNew: true }]: no RejectState is persisted or propagated.
    (The other revision hands the reason to [onError].) *)
Theorem invalid_transition_only_logged :
  let ours : gmap string Z := {[ Sample.P := 7 ]} in
  let newMsg := Sample.newState Sample.root2 Sample.five 1554000020000 in
  let approved :=
    mkAugmented (MsgApproveState (Sample.approveState Sample.root1 1554000010500))
                Sample.seven in
  FollowerRules.isValidTransition Sample.channel
    (Sample.toBNMap_decimal Sample.seven) (Sample.toBNMap_decimal Sample.five) = false
  ∧ Follower.onNewState (Sample.env ours) Sample.channel ours newMsg (Some approved)
    = ([ConsoleError
          "validatatorWorker: awesomeTestChannel: invalid transition requested in NewState"
          [LogBalances {[ Sample.P := 7 ]}; LogBalances {[ Sample.P := 5 ]}]],
       Ok (nothingNew true))
  ∧ FollowerOnError.onNewState (Sample.env ours) Sample.channel ours newMsg (Some approved)
    = ([OnError Sample.channel "InvalidTransition" newMsg "7" "5"], Ok JsUndefined).
Proof. repeat split; vm_compute; reflexivity. Qed.

(** ** The [createChannel] schema *)

Lemma decimal_digits_Some (s : string) (acc : Z) :
  Joi.all_chars Joi.is_digit s = true → 0 <= acc →
  ∃ z, decimal_digits acc s = Some z ∧ acc <= z.
Proof.
  revert acc. induction s as [|c s IH]; intros acc Hs Hacc; simpl in *.
  - exists acc. split; [reflexivity | lia].
  - apply andb_true_iff in Hs as [Hc Hs]. rewrite Hc.
    assert (Hd : 48 <= Z.of_nat (nat_of_ascii c)).
    { unfold Joi.is_digit in Hc. apply andb_true_iff in Hc as [Hc _].
      apply Nat.leb_le in Hc. lia. }
    destruct (IH (10 * acc + (Z.of_nat (nat_of_ascii c) - 48)) Hs) as (z & Hz & Hle); [lia|].
    exists z. split; [exact Hz | lia].
Qed.

(** A string the regular expression [/^\\d+$/] accepts denotes a
    non-negative integer. *)
Lemma all_digits_amount (s : string) :
  Joi.all_digits s = true → ∃ z, BN_of_decimal s = Some z ∧ 0 <= z.
Proof.
  unfold Joi.all_digits, BN_of_decimal. rewrite andb_true_iff, negb_true_iff.
  intros [-> Hs]. by apply decimal_digits_Some.
Qed.

Lemma all_digits_nonempty (s : string) : Joi.all_digits s = true → String.eqb s "" = false.
Proof. unfold Joi.all_digits. rewrite andb_true_iff, negb_true_iff. tauto. Qed.

Section SchemaFacts.

Variable uri_matches : list string → string → bool.
Variable number_of_string : string → option Q.

Lemma required_numericString (v : option JsValue) :
  Joi.required Joi.numericString v = true →
  ∃ s, v = Some (JsString s) ∧ Joi.all_digits s = true.
Proof.
  unfold Joi.required, Joi.numericString, Joi.regex, Joi.string_.
  destruct v as [[| | | |s| |]|]; try discriminate.
  rewrite andb_true_iff. intros [_ H]. by exists s.
Qed.

Lemma validator_fee_amount (v : JsValue) :
  Joi.object_
    [ ("id", Joi.required Joi.string_);
      ("url", Joi.required (Joi.uri uri_matches ["http"; "https"] Joi.string_));
      ("fee", Joi.required Joi.numericString) ] (Some v) = true →
  ∃ f, js_get "fee" v ≫= js_amount = Some f ∧ 0 <= f.
Proof.
  unfold Joi.object_. destruct v; try discriminate.
  rewrite andb_true_iff. intros [H _]. simpl in H.
  rewrite !andb_true_iff in H. destruct H as (_ & _ & H & _).
  apply required_numericString in H as (s & Hs & Hd).
  apply all_digits_amount in Hd as (f & Hf & H0).
  exists f. simpl. rewrite Hs. simpl. by rewrite Hf.
Qed.

Lemma createChannel_accepted_amounts (body : JsValue) :
  Joi.accepts_createChannel uri_matches number_of_string body = true →
  ∃ d f0 f1, body_depositAmount body = Some d ∧ body_fees body = Some [f0; f1]
             ∧ 0 <= d ∧ 0 <= f0 ∧ 0 <= f1.
Proof.
  unfold Joi.accepts_createChannel, Joi.object_ at 1.
  destruct body as [| | | | | |fields]; try discriminate.
  rewrite andb_true_iff. intros [H _].
  unfold Joi.createChannel in H. cbn [forallb] in H.
  rewrite !andb_true_iff in H.
  destruct H as (_ & _ & Hdep & _ & _ & Hspec & _).
  apply required_numericString in Hdep as (ds & Hds & Hdd).
  apply all_digits_amount in Hdd as (d & Hd & Hd0).
  unfold Joi.required in Hspec.
  destruct (Joi.assoc "spec" fields) as [specv|] eqn:Hs; [|discriminate].
  unfold Joi.object_ at 1 in Hspec.
  destruct specv as [| | | | | |sfields]; try discriminate.
  rewrite andb_true_iff in Hspec. destruct Hspec as [Hspec _].
  cbn [forallb] in Hspec. rewrite !andb_true_iff in Hspec.
  destruct Hspec as (_ & _ & Hvals & _).
  unfold Joi.length_, Joi.required, Joi.items, Joi.array_ in Hvals.
  destruct (Joi.assoc "validators" sfields) as [vals|] eqn:Hv;
    [|rewrite andb_true_iff in Hvals; destruct Hvals; discriminate].
  destruct vals as [| | | | |xs|];
    try (rewrite !andb_true_iff in Hvals; destruct Hvals as [[? ?] ?]; discriminate).
  rewrite !andb_true_iff in Hvals. destruct Hvals as [[_ Hitems] Hlen].
  destruct xs as [|v0 [|v1 [|? ?]]]; try discriminate.
  cbn [forallb] in Hitems. rewrite !andb_true_iff in Hitems.
  destruct Hitems as (H0 & H1 & _).
  apply validator_fee_amount in H0 as (f0 & Hf0 & H00).
  apply validator_fee_amount in H1 as (f1 & Hf1 & H10).
  exists d, f0, f1. repeat split; try assumption.
  - unfold body_depositAmount. simpl. rewrite Hds. simpl. exact Hd.
  - unfold body_fees. simpl. rewrite Hs. simpl. rewrite Hv. simpl.
    rewrite Hf0. simpl. rewrite Hf1. reflexivity.
Qed.

Lemma createChannel_accepts_sample (d f0 f1 : string) :
  uri_matches ["http"; "https"] "http://localhost:8005" = true →
  uri_matches ["http"; "https"] "http://localhost:8006" = true →
  Joi.all_digits d = true → Joi.all_digits f0 = true → Joi.all_digits f1 = true →
  Joi.accepts_createChannel uri_matches number_of_string (Sample.channelBody d f0 f1) = true.
Proof.
  intros Hu0 Hu1 Hd H0 H1.
  unfold Joi.accepts_createChannel, Sample.channelBody. cbn.
  unfold Joi.numericString, Joi.length_, Joi.required, Joi.items, Joi.array_,
    Joi.object_, Joi.uri, Joi.regex, Joi.string_, Joi.is_integer. cbn.
  rewrite Hu0, Hu1, Hd, H0, H1.
  rewrite !(all_digits_nonempty _ Hd), !(all_digits_nonempty _ H0),
          !(all_digits_nonempty _ H1).
  reflexivity.
Qed.

(** C7, as it holds of the code.  A body the [createChannel] schema accepts
    carries a [depositAmount] and exactly two validator fees, each a
    non-negative decimal integer; the schema relates none of them to
    another: whatever three strings of digits the sample body carries as
    deposit and fees, it is accepted. *)
Theorem createChannel_amounts :
  (∀ body,
     Joi.accepts_createChannel uri_matches number_of_string body = true →
     ∃ d f0 f1, body_depositAmount body = Some d ∧ body_fees body = Some [f0; f1]
                ∧ 0 <= d ∧ 0 <= f0 ∧ 0 <= f1)
  ∧ (uri_matches ["http"; "https"] "http://localhost:8005" = true →
     uri_matches ["http"; "https"] "http://localhost:8006" = true →
     ∀ d f0 f1,
       Joi.all_digits d = true → Joi.all_digits f0 = true → Joi.all_digits f1 = true →
       Joi.accepts_createChannel uri_matches number_of_string
         (Sample.channelBody d f0 f1) = true).
Proof.
  split.
  - exact createChannel_accepted_amounts.
  - intros Hu0 Hu1 d f0 f1. by apply createChannel_accepts_sample.
Qed.

End SchemaFacts.

Lemma createChannel_amounts_witness :
  Joi.accepts_createChannel Sample.uri_matches (fun _ => None)
    (Sample.channelBody "1000" "30" "20") = true
  ∧ ∃ d f0 f1,
      body_depositAmount (Sample.channelBody "1000" "30" "20") = Some d
      ∧ body_fees (Sample.channelBody "1000" "30" "20") = Some [f0; f1]
      ∧ 0 <= d ∧ 0 <= f0 ∧ 0 <= f1.
Proof.
  assert (H : Joi.accepts_createChannel Sample.uri_matches (fun _ => None)
                (Sample.channelBody "1000" "30" "20") = true)
    by (vm_compute; reflexivity).
  split; [exact H|].
  exact (proj1 (createChannel_amounts Sample.uri_matches (fun _ => None)) _ H).
Defined.

(** C7, as the claim words it, fails: the schema accepts a channel whose
    deposit is 1 and whose two validators ask for a fee of 1 each, with the
    sample URI matcher and with any other that takes the two localhost
    URLs. *)
Lemma createChannel_accepts_fees_above_deposit :
  Joi.accepts_createChannel Sample.uri_matches (fun _ => None)
    (Sample.channelBody "1" "1" "1") = true
  ∧ (∀ uri_matches number_of_string,
       uri_matches ["http"; "https"] "http://localhost:8005" = true →
       uri_matches ["http"; "https"] "http://localhost:8006" = true →
       Joi.accepts_createChannel uri_matches number_of_string
         (Sample.channelBody "1" "1" "1") = true)
  ∧ body_depositAmount (Sample.channelBody "1" "1" "1") = Some 1
  ∧ body_fees (Sample.channelBody "1" "1" "1") = Some [1; 1]
  ∧ ¬ feesWithinDeposit (Sample.channelBody "1" "1" "1").
Proof.
  split; [vm_compute; reflexivity|]. split; [|split; [|split]].
  - intros uri_matches number_of_string Hu0 Hu1.
    by apply createChannel_accepts_sample.
  - vm_compute; reflexivity.
  - vm_compute; reflexivity.
  - intros (d & fees & Hd & Hfees & Hle).
    vm_compute in Hd, Hfees. injection Hd as <-. injection Hfees as <-.
    vm_compute in Hle. by apply Hle.
Qed.

(** * Further properties

    ** followerRules.js: sums, minima and the two predicates *)

Section MoreFollowerRulesFacts.

Import FollowerRules.

Lemma sumBNs_le {A : Type} (f g : A → Z) (l : list A) :
  (∀ x, In x l → f x <= g x) → sumBNs (map f l) <= sumBNs (map g l).
Proof.
  induction l as [|x l IH]; intros H; simpl; [lia|].
  rewrite !sumBNs_cons.
  assert (f x <= g x) by (apply H; by left).
  assert (sumBNs (map f l) <= sumBNs (map g l)) by (apply IH; intros y Hy; apply H; by right).
  lia.
Qed.

Lemma sumBNs_le_eq {A : Type} (f g : A → Z) (l : list A) :
  (∀ x, In x l → f x <= g x) →
  sumBNs (map f l) = sumBNs (map g l) →
  ∀ x, In x l → f x = g x.
Proof.
  induction l as [|y l IH]; intros H Heq x Hx; [destruct Hx|].
  simpl in Heq. rewrite !sumBNs_cons in Heq.
  assert (Hy : f y <= g y) by (apply H; by left).
  assert (Hl : sumBNs (map f l) <= sumBNs (map g l))
    by (apply sumBNs_le; intros z Hz; apply H; by right).
  destruct Hx as [<-|Hx]; [lia|].
  apply IH; [intros z Hz; apply H; by right | lia | exact Hx].
Qed.

(** X1: [sumMins our approved] never exceeds [sumMap our], and reaches it
    (the first test of [isHealthy]) exactly when every balance of [our] is
    at most the balance [approved] holds under the same key, a key missing
    from [approved] counting as zero. *)
Theorem sumMins_le_sumMap (our approved : gmap string Z) :
  sumMins our approved <= sumMap our
  ∧ (BN.gte (sumMins our approved) (sumMap our) = true
     ↔ ∀ k v, our !! k = Some v → v <= default 0 (approved !! k)).
Proof.
  rewrite sumMins_entries, sumMap_entries.
  assert (Hle : ∀ x : string * Z, In x (Object_entries our) →
            (let '(k, v) := x in Z.min v (default 0 (approved !! k)))
            <= (let '(_, v) := x in v)).
  { intros [k v] _. lia. }
  split; [by apply sumBNs_le|].
  unfold BN.gte. rewrite Z.leb_le. split.
  - intros Hge k v Hk.
    pose proof (sumBNs_le _ _ _ Hle) as Hsum.
    assert (Heq : sumBNs (map (fun '(k, v) => Z.min v (default 0 (approved !! k)))
                              (Object_entries our))
                  = sumBNs (map (fun '(_, v) => v) (Object_entries our))) by lia.
    apply entry_lookup in Hk.
    pose proof (sumBNs_le_eq _ _ _ Hle Heq (k, v) Hk) as Hmin. simpl in Hmin. lia.
  - intros Hcov. apply Z.eq_le_incl. apply sumBNs_ext.
    intros [k v] Hin. apply entry_lookup in Hin. specialize (Hcov _ _ Hin). lia.
Qed.

Lemma sumMins_empty_l (approved : gmap string Z) : sumMins ∅ approved = 0.
Proof. unfold sumMins, Object_keys. by rewrite map_to_list_empty. Qed.

Lemma sumMins_insert_l (our approved : gmap string Z) (k : string) (v : Z) :
  our !! k = None →
  sumMins (<[k:=v]> our) approved
  = Z.min v (default 0 (approved !! k)) + sumMins our approved.
Proof.
  intros Hk. rewrite !sumMins_entries. unfold Object_entries.
  rewrite <- sumBNs_cons.
  apply sumBNs_perm.
  change (Z.min v (default 0 (approved !! k))
          :: map (fun '(k0, v0) => Z.min v0 (default 0 (approved !! k0))) (map_to_list our))
    with (map (fun '(k0, v0) => Z.min v0 (default 0 (approved !! k0)))
              ((k, v) :: map_to_list our)).
  apply Permutation_map. by apply map_to_list_insert.
Qed.

Lemma sumMins_insert_r (our approved : gmap string Z) (k : string) (v : Z) :
  approved !! k = None →
  sumMins our (<[k:=v]> approved)
  = sumMins our approved
    + match our !! k with
      | Some w => Z.min w v - Z.min w 0
      | None => 0
      end.
Proof.
  intros Hk. induction our as [|j w m Hj IH] using map_ind.
  - rewrite !sumMins_empty_l, lookup_empty. lia.
  - rewrite !sumMins_insert_l by done. rewrite IH.
    destruct (decide (j = k)) as [->|Hne].
    + rewrite !lookup_insert_eq, Hj, Hk. simpl. lia.
    + rewrite !lookup_insert_ne by done. lia.
Qed.

Lemma nonNegative_insert (m : gmap string Z) (k : string) (v : Z) :
  m !! k = None → nonNegative (<[k:=v]> m) → 0 <= v ∧ nonNegative m.
Proof.
  intros Hk H. split.
  - apply (H k v). by rewrite lookup_insert_eq.
  - intros j w Hj. apply (H j w). rewrite lookup_insert_ne; [done|]. intros <-. congruence.
Qed.

Lemma sumMins_empty_r (our : gmap string Z) : nonNegative our → sumMins our ∅ = 0.
Proof.
  induction our as [|k v m Hk IH] using map_ind; intros Hnn.
  - apply sumMins_empty_l.
  - apply nonNegative_insert in Hnn as [Hv Hm]; [|done].
    rewrite sumMins_insert_l by done. rewrite IH by done. rewrite lookup_empty. simpl. lia.
Qed.

(** X2: the source's remark that [sumMins] "is commutative, once you sum
    the mins of A it doesn't matter what the order of B is" holds as an
    equation between [sumMins a b] and [sumMins b a] when no balance is
    negative. *)
Theorem sumMins_comm (our approved : gmap string Z) :
  nonNegative our → nonNegative approved →
  sumMins our approved = sumMins approved our.
Proof.
  intros Ho Ha. induction our as [|k v m Hk IH] using map_ind.
  - rewrite sumMins_empty_l. symmetry. by apply sumMins_empty_r.
  - apply nonNegative_insert in Ho as [Hv Hm]; [|done].
    rewrite sumMins_insert_l, sumMins_insert_r by done. rewrite IH by done.
    destruct (approved !! k) as [w|] eqn:Hw; simpl.
    + specialize (Ha k w Hw). simpl in Ha. lia.
    + lia.
Qed.

Lemma sumMins_comm_witness :
  nonNegative {[ Sample.P := 5 ]} ∧ nonNegative {[ Sample.P := 1 ]}
  ∧ sumMins {[ Sample.P := 5 ]} {[ Sample.P := 1 ]}
    = sumMins {[ Sample.P := 1 ]} {[ Sample.P := 5 ]}.
Proof.
  assert (H5 : nonNegative {[ Sample.P := 5 ]}) by (apply nonNegative_singleton; lia).
  assert (H1 : nonNegative {[ Sample.P := 1 ]}) by (apply nonNegative_singleton; lia).
  split; [exact H5|]. split; [exact H1|].
  exact (sumMins_comm _ _ H5 H1).
Defined.

(** X3: two balance maps that are valid transitions of each other are the
    same map. *)
Theorem isValidTransition_antisym (c : Channel) (a b : gmap string Z) :
  isValidTransition c a b = true →
  isValidTransition c b a = true →
  a = b.
Proof.
  unfold isValidTransition.
  rewrite !andb_true_iff, !covers_iff.
  intros [[_ Hab] _] [[_ Hba] _].
  apply map_eq. intros k.
  destruct (a !! k) as [v|] eqn:Ha, (b !! k) as [w|] eqn:Hb; try reflexivity.
  - destruct (Hab _ _ Ha) as (w' & Hw' & Hle1).
    destruct (Hba _ _ Hb) as (v' & Hv' & Hle2).
    rewrite Hb in Hw'. rewrite Ha in Hv'. injection Hw' as <-. injection Hv' as <-.
    f_equal. lia.
  - destruct (Hab _ _ Ha) as (w' & Hw' & _). congruence.
  - destruct (Hba _ _ Hb) as (v' & Hv' & _). congruence.
Qed.

Lemma isValidTransition_antisym_witness :
  isValidTransition Sample.channel {[ Sample.P := 3 ]} (<[ Sample.P := 3 ]> ∅) = true
  ∧ isValidTransition Sample.channel (<[ Sample.P := 3 ]> ∅) {[ Sample.P := 3 ]} = true
  ∧ ({[ Sample.P := 3 ]} : gmap string Z) = <[ Sample.P := 3 ]> ∅.
Proof.
  split; [reflexivity|]. split; [reflexivity|].
  apply (isValidTransition_antisym Sample.channel); reflexivity.
Defined.

(** X4: from the empty map, the first state of a channel, a transition is
    valid exactly when no balance is negative and the balances sum to at
    most the deposit. *)
Theorem isValidTransition_from_empty (c : Channel) (next : gmap string Z) :
  isValidTransition c ∅ next = true
  ↔ nonNegative next ∧ sumMap next <= depositAmount c.
Proof.
  unfold isValidTransition, BN.gte, BN.lte.
  rewrite !andb_true_iff, covers_iff, none_negative_iff, !Z.leb_le, sumMap_empty.
  split.
  - tauto.
  - intros [Hnn Hdep]. pose proof (sumMap_nonneg next Hnn).
    repeat split; done.
Qed.

(** X5: a map is a valid transition of itself exactly when none of its
    balances is negative and their sum is at most the deposit. *)
Theorem isValidTransition_refl (c : Channel) (m : gmap string Z) :
  isValidTransition c m m = true
  ↔ nonNegative m ∧ sumMap m <= depositAmount c.
Proof.
  unfold isValidTransition, BN.gte, BN.lte.
  rewrite !andb_true_iff, covers_iff, none_negative_iff, !Z.leb_le.
  split; [tauto|].
  intros [Hnn Hdep]. repeat split; try done.
  intros k v Hk. exists v. split; [done | lia].
Qed.

(** X6: [isHealthy] is monotone in the approved balances: with no negative
    balance of our own, a state healthy against [approved1] stays healthy
    against any [approved2] that holds at least as much under every key of
    ours. *)
Theorem isHealthy_mono (T : Z) (our approved1 approved2 : gmap string Z) :
  nonNegative our →
  (∀ k, is_Some (our !! k) → default 0 (approved1 !! k) <= default 0 (approved2 !! k)) →
  isHealthy T our approved1 = Ok true →
  isHealthy T our approved2 = Ok true.
Proof.
  intros Ho Hle.
  assert (Hmins : sumMins our approved1 <= sumMins our approved2).
  { rewrite !sumMins_entries. apply sumBNs_le. intros [k v] Hin.
    apply entry_lookup in Hin. specialize (Hle k (mk_is_Some _ _ Hin)). lia. }
  pose proof (sumMap_nonneg our Ho) as Htotal.
  rewrite !isHealthy_unfold.
  destruct (Z.leb_spec (sumMap our) (sumMins our approved2)); [done|].
  destruct (Z.leb_spec (sumMap our) (sumMins our approved1)); [lia|].
  destruct (Z.eqb_spec (sumMap our) 0); [discriminate|].
  intros [= Hq]. f_equal. apply Z.leb_le. apply Z.leb_le in Hq.
  etransitivity; [exact Hq|]. apply Z.quot_le_mono; lia.
Qed.

Lemma isHealthy_mono_witness :
  nonNegative {[ Sample.P := 5 ]}
  ∧ isHealthy 950 {[ Sample.P := 5 ]} {[ Sample.P := 5 ]} = Ok true
  ∧ isHealthy 950 {[ Sample.P := 5 ]} {[ Sample.P := 9 ]} = Ok true.
Proof.
  assert (H5 : nonNegative {[ Sample.P := 5 ]}) by (apply nonNegative_singleton; lia).
  split; [exact H5|]. split; [reflexivity|].
  apply (isHealthy_mono 950 {[ Sample.P := 5 ]} {[ Sample.P := 5 ]} {[ Sample.P := 9 ]} H5);
    [|reflexivity].
  intros k [v Hk]. apply lookup_singleton_Some in Hk as [<- _].
  rewrite !lookup_singleton_eq. simpl. lia.
Defined.

(** X7: without negative balances and with a threshold of at most 1000,
    [isHealthy] returns true exactly when the sum of minima is at least
    the threshold's share of our total: the truncating division loses
    nothing. *)
Theorem isHealthy_exact (T : Z) (our approved : gmap string Z) :
  nonNegative our → nonNegative approved → T <= 1000 →
  (isHealthy T our approved = Ok true
   ↔ T * sumMap our <= 1000 * sumMins our approved).
Proof.
  intros Ho Ha HT.
  pose proof (sumMap_nonneg our Ho) as Htotal.
  pose proof (sumMins_nonneg our approved Ho Ha) as Hmins.
  assert (Hle : sumMins our approved <= sumMap our).
  { rewrite sumMins_entries, sumMap_entries. apply sumBNs_le. intros [k v] _. lia. }
  rewrite isHealthy_unfold.
  destruct (Z.leb_spec (sumMap our) (sumMins our approved)).
  - split; [intros _; nia | done].
  - destruct (Z.eqb_spec (sumMap our) 0); [lia|].
    rewrite Z.quot_div_nonneg by lia.
    split.
    + intros [= Hq]. apply Z.leb_le in Hq.
      pose proof (Z.mul_div_le (sumMins our approved * 1000) (sumMap our)). nia.
    + intros Hprod. f_equal. apply Z.leb_le. apply Z.div_le_lower_bound; lia.
Qed.

Lemma isHealthy_exact_witness :
  nonNegative {[ Sample.P := 5 ]} ∧ nonNegative {[ Sample.P := 1 ]} ∧ 950 <= 1000
  ∧ (isHealthy 950 {[ Sample.P := 5 ]} {[ Sample.P := 1 ]} = Ok true
     ↔ 950 * sumMap {[ Sample.P := 5 ]}
       <= 1000 * sumMins {[ Sample.P := 5 ]} {[ Sample.P := 1 ]}).
Proof.
  assert (H5 : nonNegative {[ Sample.P := 5 ]}) by (apply nonNegative_singleton; lia).
  assert (H1 : nonNegative {[ Sample.P := 1 ]}) by (apply nonNegative_singleton; lia).
  assert (HT : 950 <= 1000) by lia.
  split; [exact H5|]. split; [exact H1|]. split; [exact HT|].
  exact (isHealthy_exact 950 _ _ H5 H1 HT).
Defined.

(** X8: when our balances are non-negative with a positive total and
    [approved] knows none of our keys, the sum of minima is zero and
    [isHealthy] returns true only under a threshold of zero or less. *)
Theorem isHealthy_disjoint (T : Z) (our approved : gmap string Z) :
  nonNegative our → 0 < sumMap our →
  (∀ k, is_Some (our !! k) → approved !! k = None) →
  isHealthy T our approved = Ok (T <=? 0).
Proof.
  intros Ho Hpos Hdisj.
  assert (Hmins : sumMins our approved = 0).
  { rewrite <- (sumMins_empty_r our Ho).
    rewrite !sumMins_entries. apply sumBNs_ext. intros [k v] Hin.
    apply entry_lookup in Hin. by rewrite (Hdisj k (mk_is_Some _ _ Hin)), lookup_empty. }
  rewrite isHealthy_unfold, Hmins.
  destruct (Z.leb_spec (sumMap our) 0); [lia|].
  destruct (Z.eqb_spec (sumMap our) 0); [lia|].
  simpl. by rewrite Z.quot_0_l by lia.
Qed.

Lemma isHealthy_disjoint_witness :
  nonNegative {[ Sample.P := 5 ]} ∧ 0 < sumMap {[ Sample.P := 5 ]}
  ∧ isHealthy 950 {[ Sample.P := 5 ]} {[ "anotherPublisher" := 5 ]} = Ok false.
Proof.
  assert (H5 : nonNegative {[ Sample.P := 5 ]}) by (apply nonNegative_singleton; lia).
  assert (Hpos : 0 < sumMap {[ Sample.P := 5 ]}) by reflexivity.
  split; [exact H5|]. split; [exact Hpos|].
  apply (isHealthy_disjoint 950 {[ Sample.P := 5 ]} {[ "anotherPublisher" := 5 ]} H5 Hpos).
  intros k [v Hk]. apply lookup_singleton_Some in Hk as [<- _]. reflexivity.
Defined.

End MoreFollowerRulesFacts.

(** ** follower.js: the two queries *)

(** X9: a message [getLatestMsg] returns is stored in a document that
    matches the query and whose sort key ([_id] in one revision,
    [msg.created] in the other) is not below that of any matching
    document. *)
Theorem getLatestMsg_greatest_key (col : Collection) (channelId : string)
    (from : option string) (type : string) (m : Msg) :
  (Follower.getLatestMsg col channelId from type = Some m →
   ∃ d, In d col ∧ latestMsgQuery channelId from type d = true ∧ doc_msg d = m
        ∧ ∀ d', In d' col → latestMsgQuery channelId from type d' = true →
                ObjectId_ltb (doc_id d) (doc_id d') = false)
  ∧ (FollowerOnError.getLatestMsg col channelId from type = Some m →
     ∃ d, In d col ∧ latestMsgQuery channelId from type d = true ∧ doc_msg d = m
          ∧ ∀ d', In d' col → latestMsgQuery channelId from type d' = true →
                  missing_or_ltb (msg_created (doc_msg d)) (msg_created (doc_msg d')) = false).
Proof.
  split.
  - unfold Follower.getLatestMsg.
    destruct (limit 1 _) as [|o rest] eqn:Hlim; [discriminate|]. intros [= <-].
    pose proof (limit_1_In _ _ _ _ _ Hlim) as Hin. apply filter_In in Hin as [Hin Hq].
    exists o. repeat split; try done. intros d' Hd' Hq'.
    apply (limit_1_dominates doc_id ObjectId_ltb ObjectId_ltb_asym ObjectId_geb_trans
             _ _ _ Hlim).
    by apply filter_In.
  - unfold FollowerOnError.getLatestMsg.
    destruct (limit 1 _) as [|o rest] eqn:Hlim; [discriminate|]. intros [= <-].
    pose proof (limit_1_In _ _ _ _ _ Hlim) as Hin. apply filter_In in Hin as [Hin Hq].
    exists o. repeat split; try done. intros d' Hd' Hq'.
    apply (limit_1_dominates (fun d => msg_created (doc_msg d)) missing_or_ltb
             missing_or_ltb_asym missing_or_geb_trans _ _ _ Hlim).
    by apply filter_In.
Qed.

Lemma getLatestMsg_greatest_key_witness :
  Follower.getLatestMsg Sample.sameSecondCollection "awesomeTestChannel"
    (Some "awesomeLeader") "NewState"
  = Some (MsgNewState (Sample.newState Sample.root1 Sample.three 1554000000731))
  ∧ ∃ d, In d Sample.sameSecondCollection
         ∧ doc_msg d = MsgNewState (Sample.newState Sample.root1 Sample.three 1554000000731)
         ∧ ∀ d', In d' Sample.sameSecondCollection →
                 latestMsgQuery "awesomeTestChannel" (Some "awesomeLeader") "NewState" d' = true →
                 ObjectId_ltb (doc_id d) (doc_id d') = false.
Proof.
  assert (H : Follower.getLatestMsg Sample.sameSecondCollection "awesomeTestChannel"
                (Some "awesomeLeader") "NewState"
              = Some (MsgNewState (Sample.newState Sample.root1 Sample.three 1554000000731)))
    by reflexivity.
  split; [exact H|].
  destruct (proj1 (getLatestMsg_greatest_key Sample.sameSecondCollection "awesomeTestChannel"
                     (Some "awesomeLeader") "NewState" _) H) as (d & Hin & _ & Hmsg & Hmax).
  exists d. split; [exact Hin|]. split; [exact Hmsg | exact Hmax].
Defined.

(** X10: in a collection whose sort keys grow with insertion,
    [getLatestMsg] is the last inserted matching message, and null when
    there is none. *)
Theorem getLatestMsg_insertion_order (col : Collection) (channelId : string)
    (from : option string) (type : string) :
  (StronglySorted (fun a b => ObjectId_ltb (doc_id a) (doc_id b) = true) col →
   Follower.getLatestMsg col channelId from type
   = doc_msg <$> last (find (latestMsgQuery channelId from type) col))
  ∧ (StronglySorted (fun a b => missing_or_ltb (msg_created (doc_msg a))
                                               (msg_created (doc_msg b)) = true) col →
     FollowerOnError.getLatestMsg col channelId from type
     = doc_msg <$> last (find (latestMsgQuery channelId from type) col)).
Proof.
  split; intros Hinc.
  - unfold Follower.getLatestMsg.
    destruct (limit 1 _) as [|o rest] eqn:Hlim.
    + apply limit_1_nil in Hlim. by rewrite Hlim.
    + rewrite (limit_1_last doc_id ObjectId_ltb ObjectId_ltb_asym ObjectId_geb_trans _ o rest);
        [reflexivity | by apply filter_StronglySorted | exact Hlim].
  - unfold FollowerOnError.getLatestMsg.
    destruct (limit 1 _) as [|o rest] eqn:Hlim.
    + apply limit_1_nil in Hlim. by rewrite Hlim.
    + rewrite (limit_1_last (fun d => msg_created (doc_msg d)) missing_or_ltb
                 missing_or_ltb_asym missing_or_geb_trans _ o rest);
        [reflexivity | by apply filter_StronglySorted | exact Hlim].
Qed.

Lemma getLatestMsg_insertion_order_witness :
  StronglySorted (fun a b => ObjectId_ltb (doc_id a) (doc_id b) = true)
    Sample.approvedCollection
  ∧ Follower.getLatestMsg Sample.approvedCollection "awesomeTestChannel"
      (Some "awesomeLeader") "NewState"
    = doc_msg <$> last (find (latestMsgQuery "awesomeTestChannel" (Some "awesomeLeader")
                                "NewState") Sample.approvedCollection).
Proof.
  assert (H : StronglySorted (fun a b => ObjectId_ltb (doc_id a) (doc_id b) = true)
                Sample.approvedCollection).
  { repeat constructor. }
  split; [exact H|].
  exact (proj1 (getLatestMsg_insertion_order Sample.approvedCollection "awesomeTestChannel"
                  (Some "awesomeLeader") "NewState") H).
Defined.

(** X11: a document that does not match the query (another channel,
    sender or type) changes nothing in what [getLatestMsg] returns,
    wherever it is inserted. *)
Theorem getLatestMsg_ignores_other_messages (before after : Collection) (d : Doc)
    (channelId : string) (from : option string) (type : string) :
  latestMsgQuery channelId from type d = false →
  Follower.getLatestMsg (before ++ d :: after) channelId from type
  = Follower.getLatestMsg (before ++ after) channelId from type
  ∧ FollowerOnError.getLatestMsg (before ++ d :: after) channelId from type
    = FollowerOnError.getLatestMsg (before ++ after) channelId from type.
Proof.
  intros Hd.
  assert (Hfind : find (latestMsgQuery channelId from type) (before ++ d :: after)
                  = find (latestMsgQuery channelId from type) (before ++ after)).
  { unfold find. rewrite !List.filter_app. simpl. by rewrite Hd. }
  unfold Follower.getLatestMsg, FollowerOnError.getLatestMsg. by rewrite Hfind.
Qed.

Lemma getLatestMsg_ignores_other_messages_witness :
  latestMsgQuery "awesomeTestChannel" (Some "awesomeLeader") "NewState"
    (mkDoc (mkObjectId 1554000010 200 1) "awesomeTestChannel" "awesomeFollower"
       (MsgApproveState (Sample.approveState Sample.root1 1554000010500))) = false
  ∧ Follower.getLatestMsg Sample.approvedCollection "awesomeTestChannel"
      (Some "awesomeLeader") "NewState"
    = Follower.getLatestMsg
        [ mkDoc (mkObjectId 1554000000 100 1) "awesomeTestChannel" "awesomeLeader"
            (MsgNewState (Sample.newState Sample.root1 Sample.three 1554000000104)) ]
        "awesomeTestChannel" (Some "awesomeLeader") "NewState".
Proof.
  split; [reflexivity|].
  exact (proj1 (getLatestMsg_ignores_other_messages
                  [ mkDoc (mkObjectId 1554000000 100 1) "awesomeTestChannel" "awesomeLeader"
                      (MsgNewState (Sample.newState Sample.root1 Sample.three 1554000000104)) ]
                  []
                  (mkDoc (mkObjectId 1554000010 200 1) "awesomeTestChannel" "awesomeFollower"
                     (MsgApproveState (Sample.approveState Sample.root1 1554000010500)))
                  "awesomeTestChannel" (Some "awesomeLeader") "NewState" eq_refl)).
Defined.

(** X12: [augmentWithBalances] takes the balances of the first stored
    NewState that carries the ApproveState's state root, in insertion
    order, whatever the channel or the sender of that document. *)
Theorem augmentWithBalances_first_NewState (before after : Collection) (d : Doc)
    (n : NewStateMsg) (approveMsg : Msg) :
  doc_msg d = MsgNewState n →
  Some (ns_stateRoot n) = msg_stateRoot approveMsg →
  (∀ d', In d' before →
     msg_type (doc_msg d') = "NewState" →
     msg_stateRoot (doc_msg d') ≠ msg_stateRoot approveMsg) →
  augmentWithBalances (before ++ d :: after) (Some approveMsg)
  = Ok (Some (mkAugmented approveMsg (ns_balances n))).
Proof.
  intros Hd Hroot Hbefore. unfold augmentWithBalances, findOne.
  induction before as [|d' before IH]; simpl.
  - destruct d as [i c f m]. simpl in Hd. subst m. simpl.
    by rewrite (bool_decide_eq_true_2 _ Hroot).
  - destruct (bool_decide (msg_type (doc_msg d') = "NewState")) eqn:Ht; simpl.
    + apply bool_decide_eq_true in Ht.
      rewrite bool_decide_eq_false_2; [|apply Hbefore; [by left | done]].
      apply IH. intros x Hx. apply Hbefore. by right.
    + apply IH. intros x Hx. apply Hbefore. by right.
Qed.

Lemma augmentWithBalances_first_NewState_witness :
  augmentWithBalances Sample.approvedCollection
    (Some (MsgApproveState (Sample.approveState Sample.root1 1554000010500)))
  = Ok (Some (mkAugmented (MsgApproveState (Sample.approveState Sample.root1 1554000010500))
                Sample.three)).
Proof.
  apply (augmentWithBalances_first_NewState []
           [ mkDoc (mkObjectId 1554000010 200 1) "awesomeTestChannel" "awesomeFollower"
               (MsgApproveState (Sample.approveState Sample.root1 1554000010500)) ]
           (mkDoc (mkObjectId 1554000000 100 1) "awesomeTestChannel" "awesomeLeader"
              (MsgNewState (Sample.newState Sample.root1 Sample.three 1554000000104)))
           (Sample.newState Sample.root1 Sample.three 1554000000104)
           (MsgApproveState (Sample.approveState Sample.root1 1554000010500))).
  - reflexivity.
  - reflexivity.
  - intros d' [].
Defined.

(** ** follower.js: what [onNewState] and [tick] may do *)

Section OnNewStateShape.

Variable env : Env.
Variable channel : Channel.
Variable balances : gmap string Z.
Variable newMsg : NewStateMsg.
Variable approveMsg : option AugmentedApprove.

Ltac shape_cases :=
  repeat match goal with
  | |- context [if negb ?b then _ else _] => destruct b eqn:?; simpl
  | |- context [match ?o with Some _ => _ | None => _ end] => destruct o eqn:?; simpl
  | |- context [FollowerRules.isHealthy ?t ?a ?b] =>
      destruct (FollowerRules.isHealthy t a b) eqn:?; simpl
  end.

Lemma Follower_onNewState_shape :
  onNewState_shape env channel newMsg
    (Follower.onNewState env channel balances newMsg approveMsg).
Proof.
  unfold onNewState_shape, Follower.onNewState.
  shape_cases; try (left; reflexivity).
  - right; right. eexists _, _, _, _. repeat split; done.
  - right; left. by eexists _, _.
Qed.

Lemma FollowerOnError_onNewState_shape :
  onNewState_shape env channel newMsg
    (FollowerOnError.onNewState env channel balances newMsg approveMsg).
Proof.
  unfold onNewState_shape, FollowerOnError.onNewState.
  shape_cases; try (left; reflexivity).
  - right; right. eexists _, _, _, _. repeat split; done.
  - right; left. by eexists _, _.
Qed.

End OnNewStateShape.


(** X13: the calls of [onNewState] that leave the validator.  Every call
    it makes to [persistAndPropagate] is for the channel it was given,
    addressed to exactly the validators of the channel's spec other than
    ourselves, and hands over an ApproveState with the state root of the
    NewState and our signature over it.  Every call it makes to [onError]
    (the later revision only) passes that channel, that NewState and one
    of the four reasons, in a run that emits no ApproveState.  It calls
    neither the producer nor the heartbeat.  What [persistAndPropagate]
    and [onError] go on to do is not part of these sources. *)
Theorem onNewState_propagates_to_peers (env : Env) (channel : Channel)
    (balances : gmap string Z) (newMsg : NewStateMsg) (approveMsg : option AugmentedApprove)
    (e : Effect) :
  In e (trace (Follower.onNewState env channel balances newMsg approveMsg))
  ∨ In e (trace (FollowerOnError.onNewState env channel balances newMsg approveMsg)) →
  match e with
  | PersistAndPropagate others ch msg =>
      ch = channel
      ∧ (∀ v, In v others
              ↔ In v (spec_validators (spec channel))
                ∧ validator_id v ≠ whoami (adapter env))
      ∧ ∃ a, msg = MsgApproveState a
             ∧ as_stateRoot a = ns_stateRoot newMsg
             ∧ as_signature a
               = sign (adapter env) (Buffer_from_hex env (ns_stateRoot newMsg))
  | OnError ch reason m _ _ =>
      ch = channel ∧ m = newMsg
      ∧ In reason ["InvalidTransition"; "InvalidValidatorFees"; "InvalidRootHash";
                   "InvalidSignature"]
      ∧ existsb emitsApproveState
          (trace (FollowerOnError.onNewState env channel balances newMsg approveMsg))
        = false
      ∧ ¬ In e (trace (Follower.onNewState env channel balances newMsg approveMsg))
  | ProducerTick _ _ | HeartbeatIfNothingNew _ _ => False
  | ConsoleError _ _ | AdapterVerify _ _ _ | AdapterSign _ => True
  end.
Proof.
  assert (Hothers : ∀ v,
            In v (List.filter
                    (fun v => negb (bool_decide (validator_id v = whoami (adapter env))))
                    (spec_validators (spec channel)))
            ↔ In v (spec_validators (spec channel))
              ∧ validator_id v ≠ whoami (adapter env)).
  { intros v. rewrite filter_In, negb_true_iff, bool_decide_eq_false. tauto. }
  unfold Follower.onNewState, FollowerOnError.onNewState.
  repeat match goal with
  | |- context [if negb ?b then _ else _] => destruct b eqn:?; cbn
  | |- context [match ?o with Some _ => _ | None => _ end] => destruct o eqn:?; cbn
  | |- context [FollowerRules.isHealthy ?t ?a ?b] =>
      destruct (FollowerRules.isHealthy t a b) eqn:?; cbn
  end;
  intros [Hin|Hin]; cbn in Hin;
  repeat match type of Hin with
  | _ ∨ _ => destruct Hin as [<-|Hin]
  | False => destruct Hin
  end;
  try exact I;
  try (split; [reflexivity|]; split; [exact Hothers|]; eexists; repeat split; reflexivity);
  (split; [reflexivity|]; split; [reflexivity|]; split; [cbn; tauto|];
   split; [reflexivity|]; cbn; intuition discriminate).
Qed.

Lemma onNewState_propagates_to_peers_witness :
  In (PersistAndPropagate
        [mkValidator "awesomeLeader" "http://localhost:8005" "0"] Sample.channel
        (MsgApproveState
           (mkApproveState Sample.root1
              (Sample.getDummySig Sample.root1 "awesomeFollower") true None)))
     (trace (Follower.onNewState (Sample.env {[ Sample.P := 3 ]}) Sample.channel
               {[ Sample.P := 3 ]}
               (Sample.newState Sample.root1 Sample.three 1554000000104) None))
  ∧ ∀ v, In v [mkValidator "awesomeLeader" "http://localhost:8005" "0"]
         ↔ In v (spec_validators (spec Sample.channel))
           ∧ validator_id v ≠ "awesomeFollower".
Proof.
  assert (H : In (PersistAndPropagate
                    [mkValidator "awesomeLeader" "http://localhost:8005" "0"] Sample.channel
                    (MsgApproveState
                       (mkApproveState Sample.root1
                          (Sample.getDummySig Sample.root1 "awesomeFollower") true None)))
                 (trace (Follower.onNewState (Sample.env {[ Sample.P := 3 ]}) Sample.channel
                           {[ Sample.P := 3 ]}
                           (Sample.newState Sample.root1 Sample.three 1554000000104) None))).
  { vm_compute. right; right; left. reflexivity. }
  split; [exact H|].
  exact (proj1 (proj2 (onNewState_propagates_to_peers _ _ _ _ _ _ (or_introl H)))).
Defined.



Section TickSafety.

Variable env : Env.
Variable col : Collection.
Variable channel : Channel.

Ltac tick_cases fn shape :=
  match goal with
  | |- context [augmentWithBalances col ?o] =>
      destruct (augmentWithBalances col o) as [approve|err] eqn:Haug
  end;
  [ match goal with
    | |- context [bool_decide (is_Some ?m)] => destruct m as [[n| | | |]|] eqn:Hnew
    end;
    cbn [bool_decide decide_rel is_Some_dec negb orb lift M_bind];
    try match goal with
    | |- context [latestIsApproved ?a ?b] => destruct (latestIsApproved a b) eqn:Hlatest
    end;
    cbn [bool_decide decide_rel is_Some_dec negb orb lift M_bind call M_ret
         heartbeatIfNothingNew app fst snd trace];
    try match goal with
    | |- context [fn env (res_channel ?r) (res_balances ?r) ?m ?a] =>
        pose proof (shape env (res_channel r) (res_balances r) m a) as Hshape;
        destruct (fn env (res_channel r) (res_balances r) m a) as [t [v|e]] eqn:Hon
    end;
    cbn [bool_decide decide_rel is_Some_dec negb orb lift M_bind call M_ret
         heartbeatIfNothingNew app fst snd trace]
  | cbn [lift M_bind fst snd trace] ].

Ltac tick_structure fn shape :=
  split;
  [ intros v0; tick_cases fn shape;
    try discriminate;
    try (intros _; eexists _, [], _; split; reflexivity);
    intros _;
    match goal with
    | Hshape : onNewState_shape _ _ _ (?t, _) |- _ =>
        eexists _, t, _; split; [reflexivity|];
        destruct Hshape as [Hq | [(l & e & [= -> ?]) | (l & h & c & w & _ & _ & [= -> ?])]];
        try reflexivity;
        apply not_true_is_false; intros Hex;
        apply existsb_exists in Hex as (x & Hx & Hc);
        rewrite forallb_forall in Hq; specialize (Hq x Hx); by destruct x
    end
  | intros e0; tick_cases fn shape;
    try discriminate;
    intros _ ch res Hin; simpl in Hin;
    try (destruct Hin as [?|[]]; discriminate);
    try (by destruct Hin);
    destruct Hin as [?|Hin]; [discriminate|];
    match goal with
    | Hshape : onNewState_shape _ _ _ _ |- _ =>
        destruct Hshape as [Hq | [(l & e1 & [= -> ?]) | (l & h & c & w & _ & _ & [= ? ?])]];
        try discriminate;
        [ rewrite forallb_forall in Hq; by specialize (Hq _ Hin)
        | simpl in Hin; destruct Hin as [?|[?|[]]]; discriminate ]
    end ].

(** X16: a [tick] that returns has called [producer.tick] first and
    [heartbeatIfNothingNew] last, each once and on its own channel; a
    [tick] that throws has sent no heartbeat. *)
Theorem tick_call_structure :
  ((∀ v, snd (Follower.tick env col channel) = Ok v →
      ∃ flag middle res,
        trace (Follower.tick env col channel)
        = ProducerTick channel flag :: middle ++ [HeartbeatIfNothingNew channel res]
        ∧ existsb tickCall middle = false)
   ∧ (∀ e, snd (Follower.tick env col channel) = Throw e →
        ∀ ch res, ¬ In (HeartbeatIfNothingNew ch res) (trace (Follower.tick env col channel))))
  ∧
  ((∀ v, snd (FollowerOnError.tick env col channel) = Ok v →
      ∃ flag middle res,
        trace (FollowerOnError.tick env col channel)
        = ProducerTick channel flag :: middle ++ [HeartbeatIfNothingNew channel res]
        ∧ existsb tickCall middle = false)
   ∧ (∀ e, snd (FollowerOnError.tick env col channel) = Throw e →
        ∀ ch res,
          ¬ In (HeartbeatIfNothingNew ch res) (trace (FollowerOnError.tick env col channel)))).
Proof.
  split.
  - unfold Follower.tick. tick_structure Follower.onNewState Follower_onNewState_shape.
  - unfold FollowerOnError.tick.
    tick_structure FollowerOnError.onNewState FollowerOnError_onNewState_shape.
Qed.




End TickSafety.

Lemma tick_call_structure_witness :
  snd (Follower.tick (Sample.env ∅) Sample.approvedCollection Sample.channel) = Ok JsUndefined
  ∧ ∃ flag middle res,
      trace (Follower.tick (Sample.env ∅) Sample.approvedCollection Sample.channel)
      = ProducerTick Sample.channel flag :: middle
        ++ [HeartbeatIfNothingNew Sample.channel res]
      ∧ existsb tickCall middle = false.
Proof.
  split; [reflexivity|].
  exact (proj1 (proj1 (tick_call_structure (Sample.env ∅) Sample.approvedCollection
                         Sample.channel)) JsUndefined eq_refl).
Defined.

(** ** bin/validatorWorker.js *)

Section WorkerFacts.

Import ValidatorWorker.

Lemma findIndex_from_range {A : Type} (p : A → bool) (i : Z) (l : list A) :
  findIndex_from p i l = -1 ∨ i <= findIndex_from p i l.
Proof.
  revert i. induction l as [|x l IH]; intros i; simpl; [by left|].
  destruct (p x); [right; lia|]. destruct (IH (i + 1)); [by left | right; lia].
Qed.

Lemma findIndex_from_none {A : Type} (p : A → bool) (i : Z) (l : list A) :
  0 <= i → (findIndex_from p i l = -1 ↔ existsb p l = false).
Proof.
  revert i. induction l as [|x l IH]; intros i Hi; simpl; [done|].
  destruct (p x); simpl; [split; [lia | discriminate]|].
  apply IH. lia.
Qed.

Lemma findIndex_from_first {A : Type} (p : A → bool) (i : Z) (l : list A) :
  0 <= i → (findIndex_from p i l = i ↔ ∃ x, head l = Some x ∧ p x = true).
Proof.
  intros Hi. destruct l as [|x l]; simpl.
  - split; [lia | intros (x & Hx & _); discriminate].
  - destruct (p x) eqn:Hp.
    + split; [intros _; by exists x | done].
    + split.
      * intros Heq. destruct (findIndex_from_range p (i + 1) l); lia.
      * intros (y & [= <-] & Hy). congruence.
Qed.

Lemma validatorTick_throws_iff (env : WorkerEnv) (channel : Channel) :
  (∃ e, validatorTick env channel = Throw e) ↔ validatedBy env channel = false.
Proof.
  unfold validatorTick, validatedBy.
  set (p := fun v => String.eqb (validator_id v) (whoami (worker_adapter env))).
  pose proof (findIndex_from_none p 0 (spec_validators (spec channel)) (Z.le_refl 0)) as Hnone.
  fold (findIndex p (spec_validators (spec channel))) in Hnone.
  destruct (Z.eqb_spec (findIndex p (spec_validators (spec channel))) (-1)) as [Hidx|Hidx].
  - split; [intros _; by apply Hnone | by eexists].
  - split; [intros [e He]; by destruct (race env _ channel) | intros Hno; by apply Hnone in Hno].
Qed.

Lemma validatorTick_channel (env : WorkerEnv) (channel : Channel) (run : TickRun) :
  validatorTick env channel = Ok run → run_channel run = channel.
Proof.
  unfold validatorTick. destruct (_ =? -1); [discriminate|].
  destruct (race env _ channel); by intros [= <-].
Qed.

(** X17: [validatorTick] throws exactly when no validator of the channel's
    spec carries our id; otherwise it runs the leader's tick when the
    first validator of the spec is ours, and the follower's tick when it
    is not. *)
Theorem validatorTick_kind (env : WorkerEnv) (channel : Channel) :
  ((∃ e, validatorTick env channel = Throw e)
   ↔ ∀ v, In v (spec_validators (spec channel)) →
          validator_id v ≠ whoami (worker_adapter env))
  ∧ ∀ run, validatorTick env channel = Ok run →
      (run_kind run = LeaderTick
       ↔ ∃ leader, spec_validators (spec channel) !! 0%nat = Some leader
                   ∧ validator_id leader = whoami (worker_adapter env))
      ∧ (run_kind run = FollowerTick
         ↔ ¬ ∃ leader, spec_validators (spec channel) !! 0%nat = Some leader
                       ∧ validator_id leader = whoami (worker_adapter env)).
Proof.
  split.
  - rewrite validatorTick_throws_iff. unfold validatedBy.
    rewrite <- not_true_iff_false, existsb_exists. split.
    + intros Hno v Hv Heq. apply Hno. exists v. split; [done|]. by apply String.eqb_eq.
    + intros Hno (v & Hv & Heq). apply String.eqb_eq in Heq. by apply (Hno v).
  - unfold validatorTick.
    set (p := fun v => String.eqb (validator_id v) (whoami (worker_adapter env))).
    pose proof (findIndex_from_first p 0 (spec_validators (spec channel)) (Z.le_refl 0))
      as Hfirst.
    fold (findIndex p (spec_validators (spec channel))) in Hfirst.
    assert (Hleader : (∃ x, head (spec_validators (spec channel)) = Some x ∧ p x = true)
              ↔ ∃ leader, spec_validators (spec channel) !! 0%nat = Some leader
                          ∧ validator_id leader = whoami (worker_adapter env)).
    { unfold p. destruct (spec_validators (spec channel)) as [|x l]; simpl.
      - split; intros (x & Hx & _); discriminate.
      - split; intros (y & [= <-] & Hy); exists x; (split; [done|]);
          by apply String.eqb_eq. }
    intros run Hrun.
    destruct (_ =? -1); [discriminate|].
    assert (Hkind : run_kind run
              = if findIndex p (spec_validators (spec channel)) =? 0
                then LeaderTick else FollowerTick).
    { destruct (race env _ channel); by injection Hrun as <-. }
    rewrite Hkind, <- Hleader, <- Hfirst.
    destruct (Z.eqb_spec (findIndex p (spec_validators (spec channel))) 0);
      split; split; try done; try lia.
Qed.

Lemma validatorTick_kind_witness :
  validatorTick SampleMore.workerEnv Sample.channel
  = Ok (mkTickRun FollowerTick Sample.channel None JsUndefined)
  ∧ ¬ ∃ leader, spec_validators (spec Sample.channel) !! 0%nat = Some leader
                ∧ validator_id leader = "awesomeFollower".
Proof.
  split; [reflexivity|].
  apply (proj2 (proj2 (validatorTick_kind SampleMore.workerEnv Sample.channel)
                  (mkTickRun FollowerTick Sample.channel None JsUndefined) eq_refl)).
  reflexivity.
Defined.

(** X18: on a channel we validate, the promise [validatorTick] returns
    always resolves: with the tick's value when the tick resolves in time,
    and with [undefined] after logging "<id> tick failed" with the reason
    when it rejects or the timeout wins the race. *)
Theorem validatorTick_never_rejects (env : WorkerEnv) (channel : Channel) :
  validatedBy env channel = true →
  ∃ run, validatorTick env channel = Ok run
    ∧ match tick_settles env (run_kind run) channel with
      | Some (Resolved v) => run_logged run = None ∧ run_result run = v
      | Some (Rejected e) =>
          run_logged run = Some ((channel_id channel ++ " tick failed")%string, e)
          ∧ run_result run = JsUndefined
      | None =>
          run_logged run
          = Some ((channel_id channel ++ " tick failed")%string,
                  ("tick for " ++ channel_id channel ++ " timed out")%string)
          ∧ run_result run = JsUndefined
      end.
Proof.
  intros Hours. unfold validatorTick, validatedBy in *.
  set (p := fun v => String.eqb (validator_id v) (whoami (worker_adapter env))) in *.
  destruct (Z.eqb_spec (findIndex p (spec_validators (spec channel))) (-1)) as [Hidx|Hidx].
  - apply (findIndex_from_none p 0) in Hidx; [congruence | lia].
  - unfold race.
    destruct (tick_settles env _ channel) as [[v|e]|] eqn:Hs; eexists; (split; [reflexivity|]);
      simpl; rewrite Hs; done.
Qed.

Lemma validatorTick_never_rejects_witness :
  validatedBy SampleMore.workerEnv Sample.channel = true
  ∧ ∃ run, validatorTick SampleMore.workerEnv Sample.channel = Ok run.
Proof.
  split; [reflexivity|].
  destruct (validatorTick_never_rejects SampleMore.workerEnv Sample.channel eq_refl)
    as (run & Hrun & _).
  exists run. exact Hrun.
Defined.

Lemma startTicks_spec (env : WorkerEnv) (channels : list Channel) :
  ∃ before rest,
    channels = before ++ rest
    ∧ run_channel <$> (startTicks env channels).1 = before
    ∧ Forall (fun c => validatedBy env c = true) before
    ∧ match rest with
      | [] => (startTicks env channels).2 = Ok tt
      | c :: _ => validatedBy env c = false ∧ ∃ e, (startTicks env channels).2 = Throw e
      end.
Proof.
  induction channels as [|c channels IH]; simpl.
  - exists [], []. repeat split; constructor.
  - destruct (validatorTick env c) as [run|e] eqn:Hrun.
    + destruct IH as (before & rest & Heq & Hstarted & Hall & Hrest).
      destruct (startTicks env channels) as [runs r] eqn:Hst. simpl in *.
      exists (c :: before), rest. repeat split.
      * by rewrite Heq.
      * f_equal; [|done]. by apply validatorTick_channel in Hrun.
      * constructor; [|done]. apply not_false_iff_true. intros Hno.
        apply validatorTick_throws_iff in Hno as [e He]. congruence.
      * done.
    + exists [], (c :: channels). repeat split; [constructor|..].
      * apply validatorTick_throws_iff. by exists e.
      * by exists e.
Qed.

(** X19: a cycle starts the ticks of the listed channels in order up to
    the first one we do not validate.  If there is none it waits for all
    ticks and logs "processed N channels", with the warning exactly when N
    reaches [cfg.MAX_CHANNELS]; otherwise it ends with "allChannelsTick
    failed" without waiting for the ticks it started. *)
Theorem allChannelsTick_end (env : WorkerEnv) (channels : list Channel) :
  channel_list env = Resolved channels →
  ∃ before rest,
    channels = before ++ rest
    ∧ run_channel <$> cycle_started (allChannelsTick env) = before
    ∧ Forall (fun c => validatedBy env c = true) before
    ∧ match rest with
      | [] =>
          cycle_awaited (allChannelsTick env) = true
          ∧ ∃ warning,
              cycle_end (allChannelsTick env)
              = Processed
                  (("processed " ++ pretty (Z.of_nat (List.length channels)) ++ " channels")%string
                   :: warning)
              ∧ (warning = [] ↔ Z.of_nat (List.length channels) < cfg_MAX_CHANNELS env)
      | c :: _ =>
          validatedBy env c = false
          ∧ cycle_awaited (allChannelsTick env) = false
          ∧ ∃ reason, cycle_end (allChannelsTick env) = Failed reason
      end.
Proof.
  intros Hlist. unfold allChannelsTick. rewrite Hlist.
  destruct (startTicks_spec env channels) as (before & rest & Heq & Hstarted & Hall & Hrest).
  exists before, rest.
  destruct (startTicks env channels) as [runs r] eqn:Hst.
  cbn [fst snd] in Hstarted, Hrest.
  destruct rest as [|c rest].
  - rewrite Hrest. cbn [cycle_started cycle_awaited cycle_end].
    split; [done|]. split; [done|]. split; [done|]. split; [done|].
    assert (Hlen : List.length (run_result <$> runs) = List.length channels).
    { rewrite Heq, <- Hstarted, app_nil_r. by rewrite !length_fmap. }
    unfold logPostChannelsTick. rewrite Hlen.
    eexists. split; [reflexivity|].
    destruct (Z.leb_spec (cfg_MAX_CHANNELS env) (Z.of_nat (List.length channels)));
      split; try done; lia.
  - destruct Hrest as [Hc [e ->]]. cbn [cycle_started cycle_awaited cycle_end].
    split; [done|]. split; [done|]. split; [done|]. split; [done|]. split; [done|].
    by eexists.
Qed.

Lemma allChannelsTick_end_witness :
  channel_list SampleMore.workerEnv
  = Resolved [Sample.channel; SampleMore.foreignChannel]
  ∧ ∃ before rest,
      [Sample.channel; SampleMore.foreignChannel] = before ++ rest
      ∧ run_channel <$> cycle_started (allChannelsTick SampleMore.workerEnv) = before.
Proof.
  split; [reflexivity|].
  destruct (allChannelsTick_end SampleMore.workerEnv
              [Sample.channel; SampleMore.foreignChannel] eq_refl)
    as (before & rest & Heq & Hstarted & _).
  exists before, rest. split; [exact Heq | exact Hstarted].
Defined.




End WorkerFacts.

(** ** test/lib.js and the [validatorMessage] schema *)

Lemma genEvents_loop_repeat (count : nat) (event : TestLib.Event) (events : list TestLib.Event) :
  TestLib.genEvents_loop count event events = events ++ repeat event count.
Proof.
  revert events. induction count as [|n IH]; intros events; simpl.
  - by rewrite app_nil_r.
  - rewrite IH, <- app_assoc. reflexivity.
Qed.

(** X22: [genEvents] returns [n] events (none for a negative [n]), all of
    the given type, or IMPRESSION by default, and of the given publisher,
    the default one standing in for a missing or empty name. *)
Theorem genEvents_count (defaultPubName : string) (n : Z) (pubName type : option string) :
  List.length (TestLib.genEvents defaultPubName n pubName type) = Z.to_nat n
  ∧ ∀ event, In event (TestLib.genEvents defaultPubName n pubName type) →
      TestLib.event_type event = default "IMPRESSION" type
      ∧ TestLib.event_publisher event
        = match pubName with
          | Some "" | None => defaultPubName
          | Some name => name
          end.
Proof.
  unfold TestLib.genEvents. rewrite genEvents_loop_repeat. simpl. split.
  - apply repeat_length.
  - intros event Hin. apply repeat_spec in Hin as ->. simpl. split; [done|].
    destruct pubName as [[|c s]|]; reflexivity.
Qed.

Lemma genEvents_count_witness :
  List.length (TestLib.genEvents "myAwesomePublisher" 5 (Some "") None) = 5%nat
  ∧ ∀ event, In event (TestLib.genEvents "myAwesomePublisher" 5 (Some "") None) →
      TestLib.event_type event = "IMPRESSION"
      ∧ TestLib.event_publisher event = "myAwesomePublisher".
Proof.
  exact (genEvents_count "myAwesomePublisher" 5 (Some "") None).
Defined.

Lemma string_app_inj (h1 h2 a b : string) :
  String.length h1 = String.length h2 →
  (h1 ++ a)%string = (h2 ++ b)%string → h1 = h2 ∧ a = b.
Proof.
  revert h2. induction h1 as [|c h1 IH]; intros [|d h2] Hlen Heq; simpl in *;
    try discriminate.
  - done.
  - injection Heq as -> Heq. injection Hlen as Hlen.
    destruct (IH _ Hlen Heq) as [-> ->]. done.
Qed.

(** X21: [getDummySig] is injective on hashes of one length: equal
    signatures come from the same hash and the same signer. *)
Theorem getDummySig_inj (hash1 hash2 from1 from2 : string) :
  String.length hash1 = String.length hash2 →
  Sample.getDummySig hash1 from1 = Sample.getDummySig hash2 from2 →
  hash1 = hash2 ∧ from1 = from2.
Proof.
  intros Hlen Heq. unfold Sample.getDummySig in Heq.
  apply (string_app_inj "Dummy adapter signature for " "Dummy adapter signature for ")
    in Heq as [_ Heq]; [|reflexivity].
  apply string_app_inj in Heq as [-> Heq]; [|exact Hlen].
  apply (string_app_inj " by " " by ") in Heq as [_ ->]; done.
Qed.

Lemma getDummySig_inj_witness :
  String.length Sample.root1 = String.length (Sample.root1 ++ "")%string
  ∧ Sample.getDummySig Sample.root1 "awesomeLeader"
    = Sample.getDummySig (Sample.root1 ++ "")%string "awesomeLeader"
  ∧ Sample.root1 = (Sample.root1 ++ "")%string.
Proof.
  split; [reflexivity|]. split; [reflexivity|].
  exact (proj1 (getDummySig_inj Sample.root1 (Sample.root1 ++ "")%string
                  "awesomeLeader" "awesomeLeader" eq_refl eq_refl)).
Defined.

Section MessageSchemaFacts.

Import Joi JoiMessage.

Variable iso_date : string → bool.
Variable boolean_of_string : string → option bool.

Lemma when_base (ref : string) (is_ : list string) (then_ s : Schema)
    (fields : list (string * JsValue)) (v : option JsValue) :
  when_ ref is_ then_ s fields v = true → s v = true.
Proof.
  unfold when_, concat. destruct (assoc ref fields) as [[| | | |x| |]|]; try done.
  destruct (existsb _ is_); [|done]. by intros [? _]%andb_true_iff.
Qed.

Lemma when_then (ref : string) (is_ : list string) (then_ s : Schema)
    (fields : list (string * JsValue)) (v : option JsValue) (x : string) :
  assoc ref fields = Some (JsString x) → In x is_ →
  when_ ref is_ then_ s fields v = true → then_ v = true.
Proof.
  intros Href Hin. unfold when_, concat. rewrite Href.
  assert (Hex : existsb (String.eqb x) is_ = true).
  { apply existsb_exists. exists x. split; [done | apply String.eqb_refl]. }
  rewrite Hex. by intros [_ ?]%andb_true_iff.
Qed.

Lemma required_string (v : option JsValue) :
  required string_ v = true → ∃ s, v = Some (JsString s) ∧ s ≠ "".
Proof.
  unfold required, string_. destruct v as [[| | | |s| |]|]; try discriminate.
  intros H%negb_true_iff%String.eqb_neq. by exists s.
Qed.

Lemma pattern_amounts (v : JsValue) :
  pattern_object any_char numericString (Some v) = true → amountsObject v.
Proof.
  unfold pattern_object. destruct v as [| | | | | |fields]; try discriminate.
  rewrite forallb_forall. intros Hall. exists fields. split; [done|].
  intros k x Hin. specialize (Hall _ Hin). simpl in Hall.
  apply andb_true_iff in Hall as [_ Hx].
  unfold numericString, regex, string_ in Hx.
  destruct x; try discriminate. apply andb_true_iff in Hx as [_ Hd].
  by apply all_digits_amount.
Qed.

Lemma required_pattern (v : option JsValue) :
  required (pattern_object any_char numericString) v = true →
  ∃ b, v = Some b ∧ amountsObject b.
Proof.
  unfold required. destruct v as [b|]; [|discriminate].
  intros H. exists b. split; [done | by apply pattern_amounts].
Qed.

Lemma required_isoDate (v : option JsValue) :
  required (isoDate iso_date string_) v = true →
  ∃ d, v = Some (JsString d) ∧ iso_date d = true.
Proof.
  unfold required, isoDate, string_. destruct v as [[| | | |d| |]|]; try discriminate.
  intros [_ H]%andb_true_iff. by exists d.
Qed.

(** X23: a message [validatorMessage] accepts has one of the five types,
    and carries what that type requires: state root of 64 characters and
    signature for NewState, ApproveState and Heartbeat; balances for
    NewState and Accounting; [lastEvAggr] and [balancesBeforeFees] for
    Accounting; [timestamp] for Heartbeat; [reason] for RejectState;
    [isHealthy] for ApproveState. *)
Theorem validatorMessage_required_fields (fields : list (string * JsValue)) :
  validatorMessage iso_date boolean_of_string (Some (JsObject fields)) = true →
  ∃ type,
    assoc "type" fields = Some (JsString type)
    ∧ In type ["NewState"; "ApproveState"; "Heartbeat"; "Accounting"; "RejectState"]
    ∧ (In type ["NewState"; "ApproveState"; "Heartbeat"] →
       ∃ root signature,
         assoc "stateRoot" fields = Some (JsString root) ∧ String.length root = 64%nat
         ∧ assoc "signature" fields = Some (JsString signature) ∧ signature ≠ "")
    ∧ (In type ["NewState"; "Accounting"] →
       ∃ balances, assoc "balances" fields = Some balances ∧ amountsObject balances)
    ∧ (type = "Accounting" →
       (∃ d, assoc "lastEvAggr" fields = Some (JsString d) ∧ iso_date d = true)
       ∧ ∃ before, assoc "balancesBeforeFees" fields = Some before ∧ amountsObject before)
    ∧ (type = "Heartbeat" →
       ∃ t, assoc "timestamp" fields = Some (JsString t) ∧ iso_date t = true)
    ∧ (type = "RejectState" →
       ∃ reason, assoc "reason" fields = Some (JsString reason) ∧ reason ≠ "")
    ∧ (type = "ApproveState" →
       ∃ healthy, assoc "isHealthy" fields = Some healthy
                  ∧ boolean_ boolean_of_string (Some healthy) = true).
Proof.
  unfold validatorMessage, object_rules.
  rewrite andb_true_iff. intros [H _]. cbn [forallb] in H.
  rewrite !andb_true_iff in H.
  destruct H as (Htype & Hroot & Hsig & Hlast & Hbal & Htime & Hbefore & Hreason & Hhealthy & _).
  unfold always, required, valid, string_ in Htype.
  destruct (assoc "type" fields) as [[| | | |type| |]|] eqn:Ht; try discriminate.
  apply andb_true_iff in Htype as [_ Hvalid].
  apply existsb_exists in Hvalid as (t & Hin & ->%String.eqb_eq).
  exists t. split; [done|]. split; [done|].
  split; [|split; [|split; [|split; [|split]]]].
  - intros Hmatch.
    pose proof (when_base _ _ _ _ _ _ Hroot) as Hlen.
    apply (when_then _ _ _ _ _ _ t Ht Hmatch) in Hroot.
    apply (when_then _ _ _ _ _ _ t Ht Hmatch) in Hsig.
    apply required_string in Hroot as (root & Hr & _).
    apply required_string in Hsig as (sig & Hs & Hne).
    exists root, sig. rewrite Hr in Hlen |- *.
    unfold string_length in Hlen. apply andb_true_iff in Hlen as [_ Hlen].
    apply Nat.eqb_eq in Hlen. done.
  - intros Hmatch. apply (when_then _ _ _ _ _ _ t Ht Hmatch) in Hbal.
    by apply required_pattern.
  - intros ->. split.
    + apply (when_then _ _ _ _ _ _ _ Ht) in Hlast; [|by left].
      by apply required_isoDate.
    + apply (when_then _ _ _ _ _ _ _ Ht) in Hbefore; [|by left].
      by apply required_pattern.
  - intros ->. apply (when_then _ _ _ _ _ _ _ Ht) in Htime; [|by left].
    by apply required_isoDate.
  - intros ->. apply (when_then _ _ _ _ _ _ _ Ht) in Hreason; [|by left].
    by apply required_string.
  - intros ->. apply (when_then _ _ _ _ _ _ _ Ht) in Hhealthy; [|by left].
    unfold required in Hhealthy.
    destruct (assoc "isHealthy" fields) as [healthy|]; [|discriminate]. by exists healthy.
Qed.

(** X24: whatever the type, an accepted message that carries a
    [stateRoot] carries a string of 64 characters, and its [balances] and
    [balancesBeforeFees], when present, are objects of non-negative
    decimal amounts. *)
Theorem validatorMessage_optional_fields (fields : list (string * JsValue)) :
  validatorMessage iso_date boolean_of_string (Some (JsObject fields)) = true →
  (∀ v, assoc "stateRoot" fields = Some v →
        ∃ root, v = JsString root ∧ String.length root = 64%nat)
  ∧ (∀ v, assoc "balances" fields = Some v → amountsObject v)
  ∧ (∀ v, assoc "balancesBeforeFees" fields = Some v → amountsObject v).
Proof.
  unfold validatorMessage, object_rules.
  rewrite andb_true_iff. intros [H _]. cbn [forallb] in H.
  rewrite !andb_true_iff in H.
  destruct H as (_ & Hroot & _ & _ & Hbal & _ & Hbefore & _).
  apply when_base in Hroot, Hbal, Hbefore.
  split; [|split].
  - intros v Hv. rewrite Hv in Hroot. unfold string_length, string_ in Hroot.
    destruct v; try discriminate. apply andb_true_iff in Hroot as [_ Hlen].
    apply Nat.eqb_eq in Hlen. by eexists.
  - intros v Hv. rewrite Hv in Hbal. by apply pattern_amounts.
  - intros v Hv. rewrite Hv in Hbefore. by apply pattern_amounts.
Qed.

End MessageSchemaFacts.
Lemma validatorMessage_required_fields_witness :
  JoiMessage.validatorMessage SampleMore.iso_date SampleMore.boolean_of_string
    (Some (JsObject SampleMore.newStateFields)) = true
  ∧ ∃ type,
      Joi.assoc "type" SampleMore.newStateFields = Some (JsString type)
      ∧ In type ["NewState"; "ApproveState"; "Heartbeat"; "Accounting"; "RejectState"].
Proof.
  split; [reflexivity|].
  destruct (validatorMessage_required_fields SampleMore.iso_date SampleMore.boolean_of_string
              SampleMore.newStateFields eq_refl) as (type & Htype & Hin & _).
  exists type. split; [exact Htype | exact Hin].
Defined.

Lemma validatorMessage_optional_fields_witness :
  JoiMessage.validatorMessage SampleMore.iso_date SampleMore.boolean_of_string
    (Some (JsObject SampleMore.newStateFields)) = true
  ∧ ∀ v, Joi.assoc "balances" SampleMore.newStateFields = Some v → amountsObject v.
Proof.
  split; [reflexivity|].
  exact (proj1 (proj2 (validatorMessage_optional_fields SampleMore.iso_date
                         SampleMore.boolean_of_string SampleMore.newStateFields eq_refl))).
Defined.
